(** * The longest-flow-path runner: Source/main.cpp

    A shallow embedding of the command-line front end of the longest flow
    path program: argument handling ([main]), the outlet list reader
    ([loadOutletLocations]), algorithm selection ([createAlgorithm],
    [createMultipleAlgorithm]) and the measurement driver
    ([executeMeasurement]) with its console and CSV output.

    Conventions.
    - C++ [int] values are integers of [Z]; the places where the range of
      [int] matters (stream extraction, [atoi]) spell it out.
    - [std::string] is [string]; a [char*] that may be null is an
      [option string].
    - Effects are threaded through a state monad over [World] (file system,
      console, clock, log of calls into the algorithm library); operations
      whose behaviour C++ leaves undefined stop the run with a [Fault].
    - What stays fixed during a run and is not in the program text is the
      [Platform]: which file a name denotes, which files can be opened for
      writing, and the rounding of [lround] on a [double].
    - The raster loader and the algorithm classes are declared in headers
      and implemented elsewhere; they are an interface here ([LfpLibrary]).
    - Vector sizes are taken to fit an [int], so the conversions between
      [size_t] and [int] in [printCells] and in the CSV loop are exact.
    - A file that was opened for writing takes every line written to it. *)

From Stdlib Require Import ZArith String Ascii List Lia DecimalString DecimalPos DecimalZ.
From stdpp Require Import gmap strings.
From Equations Require Import Equations.
Import ListNotations.

Open Scope string_scope.
Open Scope Z_scope.

(** ** Characters, integers and their text form *)

Definition INT_MAX : Z := 2147483647.
Definition INT_MIN : Z := -2147483648.
Definition LONG_MAX : Z := 9223372036854775807.
Definition LONG_MIN : Z := -9223372036854775808.

(** Conversion of a [long] to [int]: the low 32 bits, read as two's
    complement. *)
Definition to_int (z : Z) : Z := (z + 2 ^ 31) mod 2 ^ 32 - 2 ^ 31.

(** [isspace] and [isdigit] of the "C" locale. *)
Definition isspace (c : ascii) : bool :=
  let n := N_of_ascii c in ((n =? 32) || ((9 <=? n) && (n <=? 13)))%N.

Definition isdigit (c : ascii) : bool :=
  let n := N_of_ascii c in ((48 <=? n) && (n <=? 57))%N.

Definition digit_value (c : ascii) : Z := Z.of_N (N_of_ascii c) - 48.

(** [std::endl] writes a line feed (and flushes). *)
Definition endl : string := String "010" EmptyString.

(** [operator<<] on an [int]: decimal digits, with a minus sign for
    negative values. *)
Definition show_int (z : Z) : string := NilZero.string_of_int (Z.to_int z).

(** Leading white space is skipped by [atoi] and by formatted extraction. *)
Fixpoint skipws (s : string) : string :=
  match s with
  | String c r => if isspace c then skipws r else s
  | EmptyString => s
  end.

(** An optional sign: whether it was a minus, and the rest. *)
Definition get_sign (s : string) : bool * string :=
  match s with
  | String c r =>
      if Ascii.eqb c "-" then (true, r)
      else if Ascii.eqb c "+" then (false, r)
      else (false, s)
  | EmptyString => (false, s)
  end.

(** The longest run of decimal digits, accumulated into [acc]. *)
Fixpoint get_digits (acc : Z) (s : string) : Z * string :=
  match s with
  | String c r =>
      if isdigit c then get_digits (10 * acc + digit_value c) r else (acc, s)
  | EmptyString => (acc, s)
  end.

Definition starts_with_digit (s : string) : bool :=
  match s with
  | String c _ => isdigit c
  | EmptyString => false
  end.

(** [atoi(s)] as the C library computes it, [(int) strtol(s, NULL, 10)]:
    white space, an optional sign, digits; no digits give 0; [strtol]
    saturates at the range of [long] and the cast keeps the low 32 bits. *)
Definition strtol (s : string) : Z :=
  let '(negative, s1) := get_sign (skipws s) in
  let '(v, _) := get_digits 0 s1 in
  let z := if negative then - v else v in
  Z.max LONG_MIN (Z.min LONG_MAX z).

Definition atoi (s : string) : Z := to_int (strtol s).

(** ** The platform

    [resolve] gives the file a name denotes: two spellings of one path, or
    a link and its target, resolve to the same file. [writable] tells
    whether a file can be opened for writing. [lround_milli] is [lround]
    of a count of nanoseconds converted to [double] milliseconds; the
    floating-point rounding in it is the platform's. *)
Class Platform := {
  resolve : string -> string;
  writable : string -> bool;
  lround_milli : Z -> Z
}.

(** ** Formatted input: [std::fstream] opened for reading *)

(** The part of the stream state the reader depends on: the fail bit and
    the characters not yet consumed. *)
Record ifstream := { failbit : bool; rdbuf : string }.

(** The stream over the text of a file that was opened. *)
Definition good_stream (s : string) : ifstream :=
  {| failbit := false; rdbuf := s |}.

(** [std::fstream file(filename, std::ios::in)]: a file that cannot be
    opened leaves the stream with its fail bit set. *)
Definition fstream_open {P : Platform}
    (files : gmap string string) (filename : string) : ifstream :=
  match files !! resolve filename with
  | Some content => good_stream content
  | None => {| failbit := true; rdbuf := "" |}
  end.

(** [std::num_get] for [int] with the default [dec] base: white space is
    skipped, then an optional sign and the longest run of digits are
    consumed. No digit, or a value outside [INT_MIN..INT_MAX], is a
    failure. *)
Definition num_get_int (s : string) : option Z * string :=
  let '(negative, s1) := get_sign (skipws s) in
  if starts_with_digit s1 then
    let '(v, s2) := get_digits 0 s1 in
    let z := if negative then - v else v in
    if (INT_MIN <=? z) && (z <=? INT_MAX) then (Some z, s2) else (None, s2)
  else (None, s1).

(** [file >> x] for an [int x]: nothing is read once the fail bit is set;
    a failed conversion sets it. [None] stands for "no value the program
    may use". *)
Definition extract_int (f : ifstream) : option Z * ifstream :=
  if failbit f then (None, f)
  else
    match num_get_int (rdbuf f) with
    | (Some z, rest) => (Some z, {| failbit := false; rdbuf := rest |})
    | (None, rest) => (None, {| failbit := true; rdbuf := rest |})
    end.

(** [file >> row >> col >> label], the condition of the reading loop: the
    triple when the stream is still good afterwards. *)
Definition extract_triple (f : ifstream) : option (Z * Z * Z) * ifstream :=
  let '(r, f1) := extract_int f in
  let '(c, f2) := extract_int f1 in
  let '(l, f3) := extract_int f2 in
  match r, c, l with
  | Some r, Some c, Some l => (Some (r, c, l), f3)
  | _, _, _ => (None, f3)
  end.

(** ** Data of the algorithm library *)

Record CellLocation := { row : Z; col : Z }.

(** Modelled from the spec: the type [FlowDirectionMatrix] is declared in a
    header that is not part of the runner; section 3 describes it as a
    dense row-major array of direction codes with explicit [width] and
    [height]. The runner reads [height] and [width] only. *)
Record FlowDirectionMatrix := { height : Z; width : Z; codes : list Z }.

(** Modelled from the spec: [inBounds] of section 4.2, on one-based
    coordinates. *)
Definition inBounds (m : FlowDirectionMatrix) (o : CellLocation) : bool :=
  (1 <=? row o) && (row o <=? height m) && (1 <=? col o) && (col o <=? width m).

(** The algorithm classes the runner instantiates. A pointer to an
    algorithm object is an [option Algorithm], [None] being [nullptr]. *)
Inductive Algorithm :=
| RecursiveSeqLfp
| RecursiveTaskLfp (taskCreationLimit : Z)
| TopDownMaxSeqLfp
| TopDownSingleSeqLfp
| TopDownSingleOmpLfp
| DoubleDropSeqLfp
| DoubleDropOmpLfp.

(** The interface of the library: [FlowDirectionLoader::loadGdal], given
    the file system and the file to load, [ILongestFlowPathAlgorithm::execute]
    and [ILongestFlowPathMultipleAlgorithm::executeMultiple]. *)
Class LfpLibrary := {
  loadGdal : gmap string string -> string -> FlowDirectionMatrix;
  execute : Algorithm -> FlowDirectionMatrix -> CellLocation -> CellLocation;
  executeMultiple :
    Algorithm -> FlowDirectionMatrix -> list CellLocation -> list CellLocation
}.


(** ** The world the runner acts on *)

(** Calls into the library, logged in program order. *)
Inductive Call :=
| CallLoadGdal (filename : string)
| CallExecute (a : Algorithm) (m : FlowDirectionMatrix) (outlet : CellLocation)
| CallExecuteMultiple (a : Algorithm) (m : FlowDirectionMatrix)
    (outlets : list CellLocation).

(** [files]: the content of each file that can be read, by the file as
    [resolve] gives it; [console]: what was written to standard output;
    [clock]: the coming readings of the high-resolution clock, in
    nanoseconds (0 once the list is used up); [calls]: the log of library
    calls. *)
Record World := {
  files : gmap string string;
  console : string;
  clock : list Z;
  calls : list Call
}.

(** Operations that are undefined behaviour in C++. *)
Inductive Fault :=
| NullCString       (* a null char* read as a C string *)
| VectorOutOfRange  (* operator[] past the end of a std::vector *)
| NullObject.       (* member call through a null object pointer *)

Inductive Res (A : Type) :=
| Val (a : A)
| Ub (f : Fault).
Arguments Val {A} a.
Arguments Ub {A} f.

(** A computation returns a value or stops at a fault; the world at that
    point is kept in both cases. *)
Definition M (A : Type) : Type := World -> Res A * World.

Definition ret {A} (a : A) : M A := fun w => (Val a, w).

Definition bind {A B} (m : M A) (k : A -> M B) : M B :=
  fun w =>
    match m w with
    | (Val a, w') => k a w'
    | (Ub f, w') => (Ub f, w')
    end.

Notation "x <- m ;; k" := (bind m (fun x => k))
  (at level 100, m at level 90, k at level 200, right associativity).
Notation "m ;;; k" := (bind m (fun _ => k))
  (at level 100, k at level 200, right associativity).

Definition fault {A} (f : Fault) : M A := fun w => (Ub f, w).

(** The world after [text] was written to standard output. *)
Definition printed (w : World) (text : string) : World :=
  {| files := files w; console := console w +:+ text;
     clock := clock w; calls := calls w |}.

(** [std::cout << s] *)
Definition cout (s : string) : M unit := fun w => (Val tt, printed w s).

(** [std::chrono::high_resolution_clock::now()] *)
Definition now : M Z :=
  fun w =>
    (Val (hd 0 (clock w)),
     {| files := files w; console := console w;
        clock := tl (clock w); calls := calls w |}).

Definition log_call (c : Call) : M unit :=
  fun w =>
    (Val tt, {| files := files w; console := console w;
                clock := clock w; calls := calls w ++ [c] |}).

Definition get_files : M (gmap string string) := fun w => (Val (files w), w).

(** A [std::ofstream]: the file it writes to and whether it is open. *)
Record ofstream := { is_open : bool; target : string }.

(** [outfile.open(name)]: the file is created or truncated; when it cannot
    be opened the stream stays closed, with its fail bit set. *)
Definition ofstream_open {P : Platform} (name : string) : M ofstream :=
  fun w =>
    if writable (resolve name) then
      (Val {| is_open := true; target := resolve name |},
       {| files := <[resolve name := ""]> (files w); console := console w;
          clock := clock w; calls := calls w |})
    else (Val {| is_open := false; target := resolve name |}, w).

(** [outfile << s]: [s] is appended to the file of an open stream; a
    stream that is not open drops it. *)
Definition ofstream_put (outfile : ofstream) (s : string) : M unit :=
  fun w =>
    if is_open outfile then
      (Val tt, {| files := alter (fun old => old +:+ s) (target outfile) (files w);
                  console := console w; clock := clock w; calls := calls w |})
    else (Val tt, w).

(** A loop over the elements of a vector, in index order. *)
Fixpoint for_each {A} (l : list A) (body : A -> M unit) : M unit :=
  match l with
  | [] => ret tt
  | x :: l' => body x ;;; for_each l' body
  end.

(** [std::string s = p] for a [char* p]. *)
Definition std_string (p : option string) : M string :=
  match p with
  | Some s => ret s
  | None => fault NullCString
  end.

(** [atoi(p)] for a [char* p]. *)
Definition atoi_at (p : option string) : M Z :=
  match p with
  | Some s => ret (atoi s)
  | None => fault NullCString
  end.

(** [v[0]] on a [std::vector]. *)
Definition front {A} (v : list A) : M A :=
  match v with
  | x :: _ => ret x
  | [] => fault VectorOutOfRange
  end.

(** ** The functions of main.cpp *)

Definition cellPrintLimit : Z := 8.

Definition algorithmLabel (algorithmIndex : Z) : string :=
  match algorithmIndex with
  | 1 => "recursive (sequential)"
  | 2 => "recursive (task-based parallel)"
  | 3 => "top-down: maximum length (sequential)"
  | 4 => "top-down: single update (sequential)"
  | 5 => "top-down: single update (parallel)"
  | 6 => "double drop (sequential)"
  | 7 => "double drop (parallel)"
  | _ => ""
  end.

Definition createMultipleAlgorithm (algorithmIndex algorithmParameter : Z)
  : option Algorithm :=
  match algorithmIndex with
  | 3 => Some TopDownMaxSeqLfp
  | 4 => Some TopDownSingleSeqLfp
  | 5 => Some TopDownSingleOmpLfp
  | _ => None
  end.

Definition createAlgorithm (algorithmIndex algorithmParameter : Z)
  : option Algorithm :=
  match algorithmIndex with
  | 1 => Some RecursiveSeqLfp
  | 2 => Some (RecursiveTaskLfp algorithmParameter)
  | 3 => Some TopDownMaxSeqLfp
  | 4 => Some TopDownSingleSeqLfp
  | 5 => Some TopDownSingleOmpLfp
  | 6 => Some DoubleDropSeqLfp
  | 7 => Some DoubleDropOmpLfp
  | _ => None
  end.

Definition usage_head : string :=
  "required arguments:" +:+ endl
  +:+ " 1.  flow direction filename" +:+ endl
  +:+ " 2.  outlet location filename (containing row and column coordinates, one-based indexing)" +:+ endl
  +:+ " 3.  algorithm index" +:+ endl
  +:+ " 4.  output filename" +:+ endl
  +:+ "(5.) algorithm parameter (task-based recursive: task creation limit, top-down: 1 for all outlets (default: only first outlet))" +:+ endl
  +:+ endl
  +:+ "available algorithms:" +:+ endl.

Definition printUsage : M unit :=
  cout usage_head ;;;
  for_each [1; 2; 3; 4; 5; 6; 7]
    (fun i => cout (" " +:+ show_int i +:+ ".  " +:+ algorithmLabel i +:+ endl)).

(** *** The reading loop of [loadOutletLocations]

    Every successful extraction consumes at least one digit, which is what
    makes the loop terminate. *)

Lemma skipws_length s : (String.length (skipws s) <= String.length s)%nat.
Proof.
  induction s as [|c r IH]; simpl; [lia|].
  destruct (isspace c); simpl; lia.
Qed.

Lemma get_sign_length s :
  (String.length (snd (get_sign s)) <= String.length s)%nat.
Proof.
  destruct s as [|c r]; simpl; [lia|].
  destruct (Ascii.eqb c "-"); [simpl; lia|].
  destruct (Ascii.eqb c "+"); simpl; lia.
Qed.

Lemma get_digits_length s :
  forall acc, (String.length (snd (get_digits acc s)) <= String.length s)%nat.
Proof.
  induction s as [|c r IH]; intros acc; simpl; [lia|].
  destruct (isdigit c); simpl; [|lia].
  specialize (IH (10 * acc + digit_value c)). lia.
Qed.

Lemma num_get_int_shrinks s z rest :
  num_get_int s = (Some z, rest) ->
  (String.length rest < String.length s)%nat.
Proof.
  unfold num_get_int.
  pose proof (skipws_length s) as Hw.
  pose proof (get_sign_length (skipws s)) as Hs.
  destruct (get_sign (skipws s)) as [neg s1]. simpl in Hs.
  destruct s1 as [|c r]; simpl; [discriminate|].
  destruct (isdigit c); [|discriminate].
  pose proof (get_digits_length r (10 * 0 + digit_value c)) as Hg.
  destruct (get_digits (10 * 0 + digit_value c) r) as [v s2]. simpl in Hg.
  destruct (_ && _); intros [= <- <-]. simpl in Hs. lia.
Qed.

Lemma extract_int_shrinks f z f' :
  extract_int f = (Some z, f') ->
  (String.length (rdbuf f') < String.length (rdbuf f))%nat.
Proof.
  unfold extract_int. destruct (failbit f); [discriminate|].
  destruct (num_get_int (rdbuf f)) as [[v|] rest] eqn:E; [|discriminate].
  intros [= <- <-]. simpl. eauto using num_get_int_shrinks.
Qed.

Lemma extract_triple_shrinks f t f' :
  extract_triple f = (Some t, f') ->
  (String.length (rdbuf f') < String.length (rdbuf f))%nat.
Proof.
  unfold extract_triple.
  destruct (extract_int f) as [[r|] f1] eqn:E1;
    destruct (extract_int f1) as [[c|] f2] eqn:E2;
    destruct (extract_int f2) as [[l|] f3] eqn:E3; try discriminate.
  intros [= <- <-].
  apply extract_int_shrinks in E1, E2, E3. lia.
Qed.

Definition inspect {A} (a : A) : {b | a = b} := exist _ a eq_refl.

(** [while (file >> row >> col >> label) outlets.push_back({row, col});] *)
Equations? read_outlets (file : ifstream) (outlets : list CellLocation)
  : list CellLocation by wf (String.length (rdbuf file)) lt :=
  read_outlets file outlets with inspect (extract_triple file) := {
    | exist _ (Some (r, c, _), file') _ =>
        read_outlets file' (outlets ++ [{| row := r; col := c |}]);
    | exist _ (None, _) _ => outlets }.
Proof. eapply extract_triple_shrinks; eauto. Qed.

Definition loadOutletLocations {P : Platform}
    (fs : gmap string string) (filename : string) : list CellLocation :=
  read_outlets (fstream_open fs filename) [].

Definition printCells (label : string) (cells : list CellLocation) : M unit :=
  let cellsTotal := Z.of_nat (List.length cells) in
  let cellsToPrint := Z.min cellsTotal cellPrintLimit in
  cout ("number of " +:+ label +:+ " locations: " +:+ show_int cellsTotal +:+ endl) ;;;
  for_each (firstn (Z.to_nat cellsToPrint) cells)
    (fun cell =>
       cout ("- row " +:+ show_int (row cell) +:+ ", column "
             +:+ show_int (col cell) +:+ endl)) ;;;
  if cellsToPrint <? cellsTotal then cout ("- ..." +:+ endl) else ret tt.

Section Runner.

Context {P : Platform} {L : LfpLibrary}.

(** [algorithm->executeMultiple(directionMatrix, outletLocations)] *)
Definition invoke_executeMultiple (algorithm : option Algorithm)
    (m : FlowDirectionMatrix) (outlets : list CellLocation)
  : M (list CellLocation) :=
  match algorithm with
  | Some a =>
      log_call (CallExecuteMultiple a m outlets) ;;;
      ret (executeMultiple a m outlets)
  | None => fault NullObject
  end.

(** [algorithm->execute(directionMatrix, outlet)] *)
Definition invoke_execute (algorithm : option Algorithm)
    (m : FlowDirectionMatrix) (outlet : CellLocation) : M CellLocation :=
  match algorithm with
  | Some a => log_call (CallExecute a m outlet) ;;; ret (execute a m outlet)
  | None => fault NullObject
  end.

(** The condition of the [if] in [executeMeasurement]. *)
Definition multipleOutlets (algorithmIndex algorithmParameter : Z) : bool :=
  negb (algorithmParameter =? 0) && (3 <=? algorithmIndex) && (algorithmIndex <=? 5).

Definition csv_line (c : CellLocation) : string :=
  show_int (row c) +:+ "," +:+ show_int (col c) +:+ endl.

(** The [then] branch: all outlets in one call. *)
Definition measureMultiple (directionMatrix : FlowDirectionMatrix)
    (outletLocations : list CellLocation) (algorithmIndex : Z)
    (outputFilename : string) (algorithmParameter : Z) : M unit :=
  printCells "outlet" outletLocations ;;;
  let algorithm := createMultipleAlgorithm algorithmIndex algorithmParameter in
  stamp_begin <- now ;;
  sourceLocations <- invoke_executeMultiple algorithm directionMatrix outletLocations ;;
  stamp_end <- now ;;
  let stamp_diff := stamp_end - stamp_begin in
  printCells "source" sourceLocations ;;;
  cout ("execution time (ms): " +:+ show_int (lround_milli stamp_diff) +:+ endl) ;;;
  outfile <- ofstream_open outputFilename ;;
  ofstream_put outfile ("row,column" +:+ endl) ;;;
  for_each sourceLocations (fun s => ofstream_put outfile (csv_line s)).

(** The [else] branch: the first outlet only. *)
Definition measureSingle (directionMatrix : FlowDirectionMatrix)
    (outletLocations : list CellLocation) (algorithmIndex : Z)
    (outputFilename : string) (algorithmParameter : Z) : M unit :=
  outlet <- front outletLocations ;;
  cout ("outlet location: row " +:+ show_int (row outlet) +:+ ", column "
        +:+ show_int (col outlet) +:+ endl) ;;;
  let algorithm := createAlgorithm algorithmIndex algorithmParameter in
  stamp_begin <- now ;;
  outlet <- front outletLocations ;;
  sourceLocation <- invoke_execute algorithm directionMatrix outlet ;;
  stamp_end <- now ;;
  let stamp_diff := stamp_end - stamp_begin in
  cout ("source location: row " +:+ show_int (row sourceLocation) +:+ ", column "
        +:+ show_int (col sourceLocation) +:+ endl) ;;;
  cout ("execution time (ms): " +:+ show_int (lround_milli stamp_diff) +:+ endl) ;;;
  outfile <- ofstream_open outputFilename ;;
  ofstream_put outfile ("row,column" +:+ endl) ;;;
  ofstream_put outfile (csv_line sourceLocation).

Definition executeMeasurement (directionFilename outletFilename : string)
    (algorithmIndex : Z) (outputFilename : string) (algorithmParameter : Z)
  : M unit :=
  cout ("loading flow direction file (" +:+ directionFilename +:+ ")..." +:+ endl) ;;;
  fs <- get_files ;;
  log_call (CallLoadGdal directionFilename) ;;;
  let directionMatrix := loadGdal fs (resolve directionFilename) in
  cout ("flow direction data: " +:+ show_int (height directionMatrix) +:+ " rows, "
        +:+ show_int (width directionMatrix) +:+ " columns" +:+ endl) ;;;
  cout ("loading outlet file (" +:+ outletFilename +:+ ")..." +:+ endl) ;;;
  fs <- get_files ;;
  let outletLocations := loadOutletLocations fs outletFilename in
  cout ("executing " +:+ algorithmLabel algorithmIndex +:+ " algorithm..." +:+ endl) ;;;
  if multipleOutlets algorithmIndex algorithmParameter
  then measureMultiple directionMatrix outletLocations algorithmIndex
         outputFilename algorithmParameter
  else measureSingle directionMatrix outletLocations algorithmIndex
         outputFilename algorithmParameter.

(** [main(argc, argv)]: [argv] holds the [argc] strings of the command
    line, the program name first; [argv[argc]] is the terminating null
    pointer, which is what the lookup gives one past the end. A [main]
    that reaches its end returns 0. *)
Definition main (argv : list string) : M Z :=
  let argc := Z.of_nat (List.length argv) in
  if argc <? 4 then
    printUsage ;;;
    ret 0
  else
    directionFilename <- std_string (argv !! 1%nat) ;;
    outletFilename <- std_string (argv !! 2%nat) ;;
    algorithmIndex <- atoi_at (argv !! 3%nat) ;;
    outputFilename <- std_string (argv !! 4%nat) ;;
    algorithmParameter <- (if argc >? 5 then atoi_at (argv !! 5%nat) else ret 0) ;;
    executeMeasurement directionFilename outletFilename algorithmIndex
      outputFilename algorithmParameter ;;;
    ret 0.

End Runner.

(** ** The outlet list format

    The format of section 6 of the specification, stated without reference
    to the reader: triples [row col label] of decimal integers that fit an
    [int], white space (blanks, tabs, line ends) between the fields and
    between the triples, optional white space around. *)

Fixpoint all_space (s : string) : bool :=
  match s with
  | String c r => isspace c && all_space r
  | EmptyString => true
  end.

Fixpoint all_digits (s : string) : bool :=
  match s with
  | String c r => isdigit c && all_digits r
  | EmptyString => true
  end.

(** Positional value of a string of decimal digits. *)
Fixpoint decimal_value (s : string) : Z :=
  match s with
  | String c r => digit_value c * 10 ^ Z.of_nat (String.length r) + decimal_value r
  | EmptyString => 0
  end.

Definition digit_string (s : string) : Prop :=
  s <> "" /\ all_digits s = true.

Definition fits_int (z : Z) : Prop := INT_MIN <= z <= INT_MAX.

(** A decimal literal and the integer it denotes. *)
Inductive int_literal : string -> Z -> Prop :=
| literal_unsigned ds :
    digit_string ds -> fits_int (decimal_value ds) ->
    int_literal ds (decimal_value ds)
| literal_plus ds :
    digit_string ds -> fits_int (decimal_value ds) ->
    int_literal (String "+" ds) (decimal_value ds)
| literal_minus ds :
    digit_string ds -> fits_int (- decimal_value ds) ->
    int_literal (String "-" ds) (- decimal_value ds).

(** Optional white space, and white space that separates two fields. *)
Definition blank (s : string) : Prop := all_space s = true.
Definition separator (s : string) : Prop := s <> "" /\ all_space s = true.

(** What may follow a field: the end of the text, or white space. *)
Definition delimited (s : string) : Prop :=
  match s with
  | String c _ => isspace c = true
  | EmptyString => True
  end.

Inductive triple_text : string -> Z * Z * Z -> Prop :=
| triple_fields lead tr sep1 tc sep2 tl r c l :
    blank lead -> int_literal tr r ->
    separator sep1 -> int_literal tc c ->
    separator sep2 -> int_literal tl l ->
    triple_text (lead +:+ tr +:+ sep1 +:+ tc +:+ sep2 +:+ tl) (r, c, l).

Inductive outlet_text : string -> list (Z * Z * Z) -> Prop :=
| outlet_text_end trail :
    blank trail -> outlet_text trail []
| outlet_text_triple first t rest ts :
    triple_text first t -> delimited rest -> outlet_text rest ts ->
    outlet_text (first +:+ rest) (t :: ts).

(** The label of a triple is dropped. *)
Definition location_of (t : Z * Z * Z) : CellLocation :=
  let '(r, c, _) := t in {| row := r; col := c |}.

(** A decimal literal of a number that does not fit an [int]. *)
Inductive overflowing_literal : string -> Prop :=
| overflowing_unsigned ds :
    digit_string ds -> ~ fits_int (decimal_value ds) ->
    overflowing_literal ds
| overflowing_plus ds :
    digit_string ds -> ~ fits_int (decimal_value ds) ->
    overflowing_literal (String "+" ds)
| overflowing_minus ds :
    digit_string ds -> ~ fits_int (- decimal_value ds) ->
    overflowing_literal (String "-" ds).

(** The start of a triple of which the row, the column or the label does
    not fit an [int]; the fields before it are well formed, what follows
    it is free but for not going on with a digit. *)
Inductive overflowing_triple : string -> Prop :=
| overflowing_row lead tok rest :
    blank lead -> overflowing_literal tok ->
    starts_with_digit rest = false ->
    overflowing_triple (lead +:+ tok +:+ rest)
| overflowing_col lead tr r sep1 tok rest :
    blank lead -> int_literal tr r ->
    separator sep1 -> overflowing_literal tok ->
    starts_with_digit rest = false ->
    overflowing_triple (lead +:+ tr +:+ sep1 +:+ tok +:+ rest)
| overflowing_label lead tr r sep1 tc c sep2 tok rest :
    blank lead -> int_literal tr r ->
    separator sep1 -> int_literal tc c ->
    separator sep2 -> overflowing_literal tok ->
    starts_with_digit rest = false ->
    overflowing_triple (lead +:+ tr +:+ sep1 +:+ tc +:+ sep2 +:+ tok +:+ rest).

(** No triple can be read where [tail] starts: the condition of the
    reading loop, [file >> row >> col >> label], fails there. *)
Definition unreadable (tail : string) : Prop :=
  fst (extract_triple (good_stream tail)) = None.

(** Pieces of text written one after the other. *)
Fixpoint join (pieces : list string) : string :=
  match pieces with
  | [] => ""
  | s :: rest => s +:+ join rest
  end.

(** The text of a result file: the header line, then one line per source
    location. *)
Definition csv_text (sources : list CellLocation) : string :=
  "row,column" +:+ endl +:+ join (map csv_line sources).

(** The file system after an output stream opened on [name] took [text]:
    the file holds [text] when it could be opened, nothing has changed
    when it could not. *)
Definition written {P : Platform}
    (fs : gmap string string) (name text : string) : gmap string string :=
  if writable (resolve name) then <[resolve name := text]> fs else fs.

(** A call that runs an algorithm. *)
Definition is_algorithm_call (c : Call) : bool :=
  match c with
  | CallLoadGdal _ => false
  | CallExecute _ _ _ => true
  | CallExecuteMultiple _ _ _ => true
  end.

(** A call that hands an algorithm a location outside the grid. *)
Definition call_out_of_bounds (c : Call) : bool :=
  match c with
  | CallLoadGdal _ => false
  | CallExecute _ m outlet => negb (inBounds m outlet)
  | CallExecuteMultiple _ m outlets =>
      existsb (fun outlet => negb (inBounds m outlet)) outlets
  end.

(** The number of lines of a text: its line feeds. *)
Fixpoint line_count (s : string) : nat :=
  match s with
  | String c r => (if Ascii.eqb c "010" then 1 else 0) + line_count r
  | EmptyString => 0
  end.

(** The text [printUsage] writes. *)
Definition usage_text : string :=
  usage_head
  +:+ join (map (fun i => " " +:+ show_int i +:+ ".  " +:+ algorithmLabel i +:+ endl)
             [1; 2; 3; 4; 5; 6; 7]).

(** ** Observations on a run *)

(** The process exit status, when [main] returns. *)
Definition exit_code (r : Res Z * World) : option Z :=
  match fst r with
  | Val c => Some c
  | Ub _ => None
  end.

(** The invocation failed: it did not end with exit status 0. *)
Definition run_fails (r : Res Z * World) : Prop :=
  exit_code r <> Some 0.

(** ** A small concrete setting

    The 3 x 3 grid of scenarios S4 and S5, all cells terminal: every cell
    is its own longest-flow-path source, so both entry points of the
    library are the identity on locations. *)

Definition terminal_grid : FlowDirectionMatrix :=
  {| height := 3; width := 3; codes := [0; 0; 0; 0; 0; 0; 0; 0; 0] |}.

(** Names are resolved by dropping a leading [./]; the file with the empty
    name and the files under [nodir/] cannot be opened for writing;
    [lround] is computed on exact quotients. *)
Definition drop_dot_slash (name : string) : string :=
  match name with
  | String "." (String "/" rest) => rest
  | _ => name
  end.

Definition exact_lround_milli (ns : Z) : Z :=
  if ns <? 0 then - ((- ns + 500000) / 1000000) else (ns + 500000) / 1000000.

Definition sample_platform : Platform :=
  {| resolve := drop_dot_slash;
     writable := fun file =>
       negb (String.eqb file "") && negb (String.prefix "nodir/" file);
     lround_milli := exact_lround_milli |}.

Definition terminal_library : LfpLibrary :=
  {| loadGdal := fun _ _ => terminal_grid;
     execute := fun _ _ outlet => outlet;
     executeMultiple := fun _ _ outlets => outlets |}.

(** An outlet list with a blank line, signs, leading zeros and trailing
    white space. *)
Definition spaced_text : string :=
  endl +:+ "  1 2 3" +:+ endl +:+ endl +:+ "+4 -5 006  " +:+ endl.

(** An outlet list whose second line has a column that does not fit an
    [int]. *)
Definition overflow_text : string :=
  "1 2 3" +:+ endl +:+ "4 2147483648 6" +:+ endl +:+ "7 8 9" +:+ endl.

(** An outlet list whose second line is not a triple of integers. *)
Definition broken_text : string :=
  "1 2 3" +:+ endl +:+ "foo" +:+ endl +:+ "3 3 9" +:+ endl.

Definition sample_files : gmap string string :=
  <["outlets.txt" := "2 2 1" +:+ endl +:+ "3 1 2" +:+ endl]>
  (<["mixed.txt" := "2 2 1" +:+ endl +:+ "4 4 2" +:+ endl]>
  (<["overflow.txt" := overflow_text]>
  (<["outside.txt" := "4 4 1" +:+ endl]>
  (<["spaced.txt" := spaced_text]>
  (<["broken.txt" := broken_text]>
  (<["empty.txt" := ""]>
  (<["dir.tif" := ""]> ∅))))))).

Definition sample_world : World :=
  {| files := sample_files; console := ""; clock := [1000; 2600000]; calls := [] |}.

(** The raster loader reads the file it is given and no other: what it
    returns depends on the content under that name only. *)
Definition reads_only_named_file (L : LfpLibrary) : Prop :=
  forall (fs1 fs2 : gmap string string) (name : string),
    fs1 !! name = fs2 !! name -> loadGdal fs1 name = loadGdal fs2 name.

(** ** The text of [printCells] *)

(** The line [printCells] writes for one cell. *)
Definition cell_line (cell : CellLocation) : string :=
  "- row " +:+ show_int (row cell) +:+ ", column " +:+ show_int (col cell) +:+ endl.

(** All of what [printCells] writes: the count, the first
    [cellPrintLimit] cells, and a line of dots when cells were left out. *)
Definition printCells_text (label : string) (cells : list CellLocation) : string :=
  "number of " +:+ label +:+ " locations: "
  +:+ show_int (Z.of_nat (List.length cells)) +:+ endl
  +:+ join (map cell_line (firstn 8 cells))
  +:+ (if (8 <? List.length cells)%nat then "- ..." +:+ endl else "").

(** * Properties *)

(** ** The model on small inputs *)

Example atoi_examples :
  atoi "  -12x" = -12 /\ atoi "abc" = 0 /\ atoi "+7" = 7
  /\ atoi "4294967297" = 1.
Proof. repeat split. Qed.

Example usage_console :
  console (snd (main (P := sample_platform) (L := terminal_library) ["lfp"] sample_world)) = usage_text.
Proof. reflexivity. Qed.

Example single_run_console :
  console (snd (main (P := sample_platform) (L := terminal_library)
                  ["lfp"; "dir.tif"; "outlets.txt"; "2"; "out.csv"; "16"]
                  sample_world))
  = "loading flow direction file (dir.tif)..." +:+ endl
    +:+ "flow direction data: 3 rows, 3 columns" +:+ endl
    +:+ "loading outlet file (outlets.txt)..." +:+ endl
    +:+ "executing recursive (task-based parallel) algorithm..." +:+ endl
    +:+ "outlet location: row 2, column 2" +:+ endl
    +:+ "source location: row 2, column 2" +:+ endl
    +:+ "execution time (ms): 3" +:+ endl.
Proof. reflexivity. Qed.

Example multiple_run_console :
  console (snd (main (P := sample_platform) (L := terminal_library)
                  ["lfp"; "dir.tif"; "outlets.txt"; "5"; "out.csv"; "1"]
                  sample_world))
  = "loading flow direction file (dir.tif)..." +:+ endl
    +:+ "flow direction data: 3 rows, 3 columns" +:+ endl
    +:+ "loading outlet file (outlets.txt)..." +:+ endl
    +:+ "executing top-down: single update (parallel) algorithm..." +:+ endl
    +:+ "number of outlet locations: 2" +:+ endl
    +:+ "- row 2, column 2" +:+ endl
    +:+ "- row 3, column 1" +:+ endl
    +:+ "number of source locations: 2" +:+ endl
    +:+ "- row 2, column 2" +:+ endl
    +:+ "- row 3, column 1" +:+ endl
    +:+ "execution time (ms): 3" +:+ endl.
Proof. reflexivity. Qed.

(** The reader works on tokens, not on lines: a line with two numbers
    borrows the third from the next line; a number that does not fit an
    [int] stops the reading like any other malformed token. *)
Example read_outlets_examples :
  read_outlets (good_stream ("7 8" +:+ endl +:+ "1 2 3" +:+ endl)) []
  = [{| row := 7; col := 8 |}]
  /\ read_outlets (good_stream ("1 2 3" +:+ endl +:+ "4 2147483648 6")) []
     = [{| row := 1; col := 2 |}]
  /\ read_outlets (good_stream "1 2 -2147483648 3 4 5x") []
     = [{| row := 1; col := 2 |}; {| row := 3; col := 4 |}].
Proof. repeat split. Qed.

(** ** Strings and characters *)

Lemma string_app_cons (x : ascii) (a b : string) :
  String x a +:+ b = String x (a +:+ b).
Proof. reflexivity. Qed.

Lemma string_app_nil_l (b : string) : "" +:+ b = b.
Proof. reflexivity. Qed.

Lemma string_app_assoc (a b c : string) : (a +:+ b) +:+ c = a +:+ (b +:+ c).
Proof.
  induction a as [|x a IH]; [reflexivity|].
  now rewrite !string_app_cons, IH.
Qed.

Lemma string_app_nil_r (a : string) : a +:+ "" = a.
Proof.
  induction a as [|x a IH]; [reflexivity|].
  now rewrite string_app_cons, IH.
Qed.

Lemma digit_not_space c : isdigit c = true -> isspace c = false.
Proof.
  unfold isdigit, isspace. cbv zeta. intros H.
  apply andb_true_iff in H as [H1 H2].
  apply N.leb_le in H1. apply N.leb_le in H2.
  apply orb_false_iff. split.
  - apply N.eqb_neq. lia.
  - apply andb_false_iff. right. apply N.leb_gt. lia.
Qed.

Lemma space_not_digit c : isspace c = true -> isdigit c = false.
Proof.
  intros H. destruct (isdigit c) eqn:E; [|reflexivity].
  apply digit_not_space in E. congruence.
Qed.

Lemma digit_not_sign c :
  isdigit c = true -> Ascii.eqb c "-" = false /\ Ascii.eqb c "+" = false.
Proof.
  unfold isdigit. cbv zeta. intros H.
  apply andb_true_iff in H as [H1 H2].
  apply N.leb_le in H1. apply N.leb_le in H2.
  split; apply Ascii.eqb_neq; intros ->; vm_compute in H1; now apply H1.
Qed.

Lemma skipws_blank ws s : blank ws -> skipws (ws +:+ s) = skipws s.
Proof.
  unfold blank. induction ws as [|c r IH]; [reflexivity|].
  rewrite string_app_cons. simpl.
  intros H. apply andb_true_iff in H as [Hc Hr]. rewrite Hc. auto.
Qed.

Lemma separator_blank ws : separator ws -> blank ws.
Proof. now intros [_ H]. Qed.

Lemma separator_not_digit ws s :
  separator ws -> starts_with_digit (ws +:+ s) = false.
Proof.
  intros [Hne Hsp]. destruct ws as [|c r]; [congruence|].
  rewrite string_app_cons. simpl in *. apply andb_true_iff in Hsp as [Hc _].
  now apply space_not_digit.
Qed.

(** ** Reading one integer *)

Lemma get_digits_run ds rest :
  all_digits ds = true -> starts_with_digit rest = false ->
  forall acc,
    get_digits acc (ds +:+ rest)
    = (acc * 10 ^ Z.of_nat (String.length ds) + decimal_value ds, rest).
Proof.
  intros Hds Hrest. induction ds as [|c r IH]; intros acc.
  - rewrite string_app_nil_l. destruct rest as [|c r]; simpl in *.
    + f_equal. lia.
    + rewrite Hrest. f_equal. lia.
  - simpl in Hds. apply andb_true_iff in Hds as [Hc Hr].
    rewrite string_app_cons. cbn [get_digits]. rewrite Hc, (IH Hr). f_equal.
    cbn [String.length decimal_value].
    rewrite Nat2Z.inj_succ, Z.pow_succ_r by lia. ring.
Qed.

Lemma digit_string_head ds :
  digit_string ds -> exists c r, ds = String c r /\ isdigit c = true.
Proof.
  intros [Hne Hd]. destruct ds as [|c r]; [congruence|].
  simpl in Hd. apply andb_true_iff in Hd as [Hc _]. eauto.
Qed.

Lemma fits_int_check z :
  fits_int z -> (INT_MIN <=? z) && (z <=? INT_MAX) = true.
Proof.
  intros [H1 H2]. apply andb_true_iff. split; now apply Z.leb_le.
Qed.

Lemma num_get_int_unsigned (negative : bool) ds rest :
  digit_string ds -> starts_with_digit rest = false ->
  fits_int (if negative then - decimal_value ds else decimal_value ds) ->
  (let '(v, s2) := get_digits 0 (ds +:+ rest) in
   let z := if negative then - v else v in
   if (INT_MIN <=? z) && (z <=? INT_MAX) then (Some z, s2) else (None, s2))
  = (Some (if negative then - decimal_value ds else decimal_value ds), rest).
Proof.
  intros [Hne Hd] Hrest Hfit.
  rewrite (get_digits_run ds rest Hd Hrest). cbn zeta.
  replace (0 * 10 ^ Z.of_nat (String.length ds) + decimal_value ds)
    with (decimal_value ds) by lia.
  now rewrite (fits_int_check _ Hfit).
Qed.

(** A literal, after optional white space and before anything that is not
    a digit, is read as the integer it denotes; the stream is left right
    after it. *)
Lemma num_get_int_literal ws tok z rest :
  blank ws -> int_literal tok z -> starts_with_digit rest = false ->
  num_get_int (ws +:+ tok +:+ rest) = (Some z, rest).
Proof.
  intros Hws Hlit Hrest. unfold num_get_int. rewrite (skipws_blank _ _ Hws).
  destruct Hlit as [ds Hds Hfit | ds Hds Hfit | ds Hds Hfit].
  - destruct (digit_string_head _ Hds) as (c & r & -> & Hc).
    pose proof (digit_not_space _ Hc) as Hsp.
    destruct (digit_not_sign _ Hc) as [Hm Hp].
    rewrite string_app_cons. cbn [skipws]. rewrite Hsp.
    cbn [get_sign]. rewrite Hm, Hp. cbn [starts_with_digit]. rewrite Hc.
    change (String c (r +:+ rest)) with (String c r +:+ rest).
    exact (num_get_int_unsigned false _ _ Hds Hrest Hfit).
  - destruct (digit_string_head _ Hds) as (c & r & -> & Hc).
    rewrite string_app_cons. cbn [skipws]. change (isspace "+") with false. cbv iota.
    cbn [get_sign]. change (Ascii.eqb "+" "-") with false.
    change (Ascii.eqb "+" "+") with true. cbv iota.
    rewrite (string_app_cons c r rest) at 1. cbn [starts_with_digit]. rewrite Hc.
    exact (num_get_int_unsigned false _ _ Hds Hrest Hfit).
  - destruct (digit_string_head _ Hds) as (c & r & -> & Hc).
    rewrite string_app_cons. cbn [skipws]. change (isspace "-") with false. cbv iota.
    cbn [get_sign]. change (Ascii.eqb "-" "-") with true. cbv iota.
    rewrite (string_app_cons c r rest) at 1. cbn [starts_with_digit]. rewrite Hc.
    exact (num_get_int_unsigned true _ _ Hds Hrest Hfit).
Qed.

Lemma extract_int_literal ws tok z rest :
  blank ws -> int_literal tok z -> starts_with_digit rest = false ->
  extract_int (good_stream (ws +:+ tok +:+ rest)) = (Some z, good_stream rest).
Proof.
  intros Hws Hlit Hrest. unfold extract_int, good_stream. cbn [failbit rdbuf].
  now rewrite (num_get_int_literal _ _ _ _ Hws Hlit Hrest).
Qed.

Lemma extract_int_blank ws s :
  blank ws ->
  extract_int (good_stream (ws +:+ s)) = extract_int (good_stream s).
Proof.
  intros Hws. unfold extract_int, good_stream, num_get_int. cbn [failbit rdbuf].
  now rewrite (skipws_blank _ _ Hws).
Qed.

Lemma extract_int_failed f : failbit f = true -> extract_int f = (None, f).
Proof. intros H. unfold extract_int. now rewrite H. Qed.

(** ** Reading triples *)

Lemma extract_triple_text first t rest :
  triple_text first t -> starts_with_digit rest = false ->
  extract_triple (good_stream (first +:+ rest)) = (Some t, good_stream rest).
Proof.
  intros Ht Hrest.
  destruct Ht as [lead tr sep1 tc sep2 tl r c l Hlead Hr Hs1 Hc Hs2 Hl].
  rewrite !string_app_assoc. unfold extract_triple.
  rewrite (extract_int_literal lead tr r _ Hlead Hr)
    by (rewrite <- !string_app_assoc, !string_app_assoc;
        now apply separator_not_digit).
  change (sep1 +:+ tc +:+ sep2 +:+ tl +:+ rest)
    with (sep1 +:+ tc +:+ (sep2 +:+ tl +:+ rest)).
  rewrite (extract_int_literal sep1 tc c _ (separator_blank _ Hs1) Hc)
    by now apply separator_not_digit.
  rewrite (extract_int_literal sep2 tl l _ (separator_blank _ Hs2) Hl Hrest).
  reflexivity.
Qed.

Lemma extract_triple_blank ws s :
  blank ws ->
  extract_triple (good_stream (ws +:+ s)) = extract_triple (good_stream s).
Proof.
  intros Hws. unfold extract_triple. now rewrite (extract_int_blank _ _ Hws).
Qed.

Lemma extract_triple_failed f :
  failbit f = true -> extract_triple f = (None, f).
Proof.
  intros H. unfold extract_triple. now rewrite !(extract_int_failed f H).
Qed.

(** ** The reading loop *)

Lemma read_outlets_clause file (x : {b | extract_triple file = b}) outlets :
  read_outlets_unfold_clause_1 file x outlets
  = match proj1_sig x with
    | (Some (r, c, _), file') =>
        read_outlets file' (outlets ++ [{| row := r; col := c |}])
    | (None, _) => outlets
    end.
Proof. destruct x as [[[[[r c] l]|] file'] H]; reflexivity. Qed.

Lemma read_outlets_step file outlets :
  read_outlets file outlets
  = match extract_triple file with
    | (Some (r, c, _), file') =>
        read_outlets file' (outlets ++ [{| row := r; col := c |}])
    | (None, _) => outlets
    end.
Proof. now rewrite read_outlets_equation_1, read_outlets_clause. Qed.

(** The vector being filled is only appended to. *)
Lemma read_outlets_acc file outlets :
  read_outlets file outlets = (outlets ++ read_outlets file [])%list.
Proof.
  remember (S (String.length (rdbuf file))) as n eqn:Hn.
  assert (Hlt : (String.length (rdbuf file) < n)%nat) by lia. clear Hn.
  revert file outlets Hlt.
  induction n as [|n IH]; intros file outlets Hlt; [lia|].
  rewrite (read_outlets_step file outlets), (read_outlets_step file []).
  destruct (extract_triple file) as [[[[r c] l]|] file'] eqn:E.
  - apply extract_triple_shrinks in E.
    rewrite (IH file' (outlets ++ _)%list), (IH file' ([] ++ _)%list) by lia.
    now rewrite <- app_assoc.
  - now rewrite app_nil_r.
Qed.

Lemma read_outlets_stop file :
  fst (extract_triple file) = None -> read_outlets file [] = [].
Proof.
  intros H. rewrite read_outlets_step.
  destruct (extract_triple file) as [[[[r c] l]|] file']; [discriminate|reflexivity].
Qed.

Lemma delimited_app_not_digit rest tail :
  delimited rest -> starts_with_digit tail = false ->
  starts_with_digit (rest +:+ tail) = false.
Proof.
  intros Hd Ht. destruct rest as [|c r]; [exact Ht|].
  rewrite string_app_cons. now apply space_not_digit.
Qed.

(** The loop reads the triples of a well-formed text in order, whatever
    follows the text, and goes on with what follows. *)
Lemma read_outlets_text text triples :
  outlet_text text triples ->
  forall tail, starts_with_digit tail = false ->
    read_outlets (good_stream (text +:+ tail)) []
    = (map location_of triples ++ read_outlets (good_stream tail) [])%list.
Proof.
  induction 1 as [trail Htrail | first t rest ts Hfirst Hdel Hrest IH];
    intros tail Htail.
  - rewrite (read_outlets_step (good_stream (trail +:+ tail))),
      (read_outlets_step (good_stream tail)).
    now rewrite (extract_triple_blank _ _ Htrail).
  - rewrite string_app_assoc, read_outlets_step.
    rewrite (extract_triple_text _ _ _ Hfirst)
      by now apply delimited_app_not_digit.
    destruct t as [[r c] l]. rewrite read_outlets_acc, (IH _ Htail).
    reflexivity.
Qed.

Lemma fstream_open_found {P : Platform} fs filename text :
  fs !! resolve filename = Some text ->
  fstream_open fs filename = good_stream text.
Proof. intros H. unfold fstream_open. now rewrite H. Qed.

Lemma loadOutletLocations_missing {P : Platform} fs filename :
  fs !! resolve filename = None -> loadOutletLocations fs filename = [].
Proof.
  intros H. unfold loadOutletLocations, fstream_open. rewrite H.
  apply read_outlets_stop. now rewrite extract_triple_failed.
Qed.

(** A token that starts with a character no integer starts with cannot be
    read. *)
Lemma unreadable_non_numeric ws c r :
  blank ws -> isspace c = false -> isdigit c = false ->
  Ascii.eqb c "-" = false -> Ascii.eqb c "+" = false ->
  unreadable (ws +:+ String c r).
Proof.
  intros Hws Hsp Hd Hm Hp. unfold unreadable.
  rewrite (extract_triple_blank _ _ Hws).
  unfold extract_triple, extract_int at 1, good_stream, num_get_int.
  cbn [failbit rdbuf skipws get_sign]. rewrite Hsp. cbn [get_sign].
  rewrite Hm, Hp. cbn [starts_with_digit]. rewrite Hd.
  now rewrite !extract_int_failed.
Qed.

Lemma unreadable_empty : unreadable "".
Proof. reflexivity. Qed.

(** ** The outlet list reader *)

Ltac nonempty_and_check := split; [discriminate | reflexivity].
Ltac in_int_range := split; vm_compute; discriminate.
Ltac unsigned_literal ds :=
  apply (literal_unsigned ds); [nonempty_and_check | in_int_range].
Ltac plus_literal ds :=
  apply (literal_plus ds); [nonempty_and_check | in_int_range].
Ltac minus_literal ds :=
  apply (literal_minus ds); [nonempty_and_check | in_int_range].

(** C5. A well-formed outlet list (white-space separated integer triples,
    blank lines and trailing white space allowed) is read as the sequence
    of its (row, col) pairs, in file order; the labels are dropped, the
    white space has no influence and the reading ends with the text. *)
Theorem loadOutletLocations_well_formed {P : Platform}
    (fs : gmap string string) (filename text : string)
    (triples : list (Z * Z * Z)) :
  fs !! resolve filename = Some text ->
  outlet_text text triples ->
  loadOutletLocations fs filename = map location_of triples.
Proof.
  intros Hfile Htext. unfold loadOutletLocations.
  rewrite (fstream_open_found _ _ _ Hfile), <- (string_app_nil_r text).
  rewrite (read_outlets_text _ _ Htext "" eq_refl).
  rewrite (read_outlets_stop _ unreadable_empty). apply app_nil_r.
Qed.

Lemma spaced_text_well_formed :
  outlet_text spaced_text [(1, 2, 3); (4, -5, 6)].
Proof.
  apply (outlet_text_triple (endl +:+ "  1 2 3") (1, 2, 3)
           (endl +:+ endl +:+ "+4 -5 006  " +:+ endl)).
  - apply (triple_fields (endl +:+ "  ") "1" " " "2" " " "3");
      [reflexivity | | nonempty_and_check | | nonempty_and_check | ].
    + unsigned_literal "1".
    + unsigned_literal "2".
    + unsigned_literal "3".
  - reflexivity.
  - apply (outlet_text_triple (endl +:+ endl +:+ "+4 -5 006") (4, -5, 6)
             ("  " +:+ endl)).
    + apply (triple_fields (endl +:+ endl) "+4" " " "-5" " " "006");
        [reflexivity | | nonempty_and_check | | nonempty_and_check | ].
      * plus_literal "4".
      * minus_literal "5".
      * unsigned_literal "006".
    + reflexivity.
    + apply outlet_text_end. reflexivity.
Defined.

Lemma loadOutletLocations_well_formed_witness :
  sample_files !! "spaced.txt" = Some spaced_text
  /\ outlet_text spaced_text [(1, 2, 3); (4, -5, 6)]
  /\ loadOutletLocations (P := sample_platform) sample_files "spaced.txt"
     = [{| row := 1; col := 2 |}; {| row := 4; col := -5 |}].
Proof.
  split; [reflexivity|]. split; [exact spaced_text_well_formed|].
  apply (loadOutletLocations_well_formed (P := sample_platform)
           sample_files "spaced.txt" spaced_text
           [(1, 2, 3); (4, -5, 6)]).
  - reflexivity.
  - exact spaced_text_well_formed.
Defined.

(** The reader on the broken list: the first line is read, the reading
    stops at [foo], and the run that uses the list ends as any other run,
    with its result file written. *)
Lemma malformed_line_raises_no_error :
  loadOutletLocations (P := sample_platform) sample_files "broken.txt" = [{| row := 1; col := 2 |}]
  /\ ~ run_fails
        (main (P := sample_platform) (L := terminal_library)
           ["lfp"; "dir.tif"; "broken.txt"; "1"; "out.csv"] sample_world)
  /\ files (snd (main (P := sample_platform) (L := terminal_library)
                   ["lfp"; "dir.tif"; "broken.txt"; "1"; "out.csv"] sample_world))
       !! "out.csv"
     = Some (csv_text [{| row := 1; col := 2 |}]).
Proof.
  split; [reflexivity|]. split; [|reflexivity].
  intros H. apply H. reflexivity.
Qed.

(** C4, as the code has it. A malformed line raises no error: when the
    well-formed triples of a file are followed by text from which no
    triple can be read, the reader stops there and returns the (row, col)
    pairs of the triples before it. *)
Theorem loadOutletLocations_stops_at_malformed {P : Platform}
    (fs : gmap string string) (filename text tail : string)
    (triples : list (Z * Z * Z)) :
  fs !! resolve filename = Some (text +:+ tail) ->
  outlet_text text triples ->
  starts_with_digit tail = false ->
  unreadable tail ->
  loadOutletLocations fs filename = map location_of triples.
Proof.
  intros Hfile Htext Hstart Hbad. unfold loadOutletLocations.
  rewrite (fstream_open_found _ _ _ Hfile).
  rewrite (read_outlets_text _ _ Htext tail Hstart).
  rewrite (read_outlets_stop _ Hbad). apply app_nil_r.
Qed.

Lemma broken_text_prefix :
  outlet_text ("1 2 3" +:+ endl) [(1, 2, 3)].
Proof.
  apply (outlet_text_triple "1 2 3" (1, 2, 3) endl).
  - apply (triple_fields "" "1" " " "2" " " "3");
      [reflexivity | | nonempty_and_check | | nonempty_and_check | ].
    + unsigned_literal "1".
    + unsigned_literal "2".
    + unsigned_literal "3".
  - reflexivity.
  - apply outlet_text_end. reflexivity.
Defined.

Lemma loadOutletLocations_stops_at_malformed_witness :
  sample_files !! "broken.txt"
  = Some (("1 2 3" +:+ endl) +:+ ("foo" +:+ endl +:+ "3 3 9" +:+ endl))
  /\ outlet_text ("1 2 3" +:+ endl) [(1, 2, 3)]
  /\ starts_with_digit ("foo" +:+ endl +:+ "3 3 9" +:+ endl) = false
  /\ unreadable ("foo" +:+ endl +:+ "3 3 9" +:+ endl)
  /\ loadOutletLocations (P := sample_platform) sample_files "broken.txt" = [{| row := 1; col := 2 |}].
Proof.
  split; [reflexivity|]. split; [exact broken_text_prefix|].
  split; [reflexivity|]. split; [reflexivity|].
  apply (loadOutletLocations_stops_at_malformed (P := sample_platform)
           sample_files "broken.txt"
           ("1 2 3" +:+ endl) ("foo" +:+ endl +:+ "3 3 9" +:+ endl) [(1, 2, 3)]).
  - reflexivity.
  - exact broken_text_prefix.
  - reflexivity.
  - reflexivity.
Defined.

(** ** Console and file output *)

Lemma printed_printed w a b : printed (printed w a) b = printed w (a +:+ b).
Proof. unfold printed. simpl. now rewrite string_app_assoc. Qed.

Lemma printed_nil w : printed w "" = w.
Proof. destruct w. unfold printed. simpl. now rewrite string_app_nil_r. Qed.

Lemma bind_val {A B} (m : M A) (k : A -> M B) w a w' :
  m w = (Val a, w') -> bind m k w = k a w'.
Proof. intros H. unfold bind. now rewrite H. Qed.

Lemma bind_ub {A B} (m : M A) (k : A -> M B) w f w' :
  m w = (Ub f, w') -> bind m k w = (Ub f, w').
Proof. intros H. unfold bind. now rewrite H. Qed.

Lemma for_each_cout {A} (f : A -> string) (l : list A) w :
  for_each l (fun x => cout (f x)) w = (Val tt, printed w (join (map f l))).
Proof.
  revert w. induction l as [|x l IH]; intros w.
  - simpl. unfold ret. now rewrite printed_nil.
  - cbn [for_each map join]. rewrite (bind_val _ _ w tt (printed w (f x))) by reflexivity.
    now rewrite IH, printed_printed.
Qed.

Lemma printUsage_run w : printUsage w = (Val tt, printed w usage_text).
Proof.
  unfold printUsage.
  rewrite (bind_val _ _ w tt (printed w usage_head)) by reflexivity.
  now rewrite for_each_cout, printed_printed.
Qed.

Lemma printCells_run label cells w :
  exists text, printCells label cells w = (Val tt, printed w text).
Proof.
  unfold printCells. cbv zeta.
  erewrite bind_val by reflexivity.
  erewrite bind_val by apply for_each_cout.
  rewrite printed_printed.
  destruct (_ <? _).
  - unfold cout. rewrite printed_printed. eauto.
  - unfold ret. eauto.
Qed.

Lemma ofstream_open_done {P : Platform} name w :
  writable (resolve name) = true ->
  ofstream_open name w
  = (Val {| is_open := true; target := resolve name |},
     {| files := <[resolve name := ""]> (files w); console := console w;
        clock := clock w; calls := calls w |}).
Proof. intros H. unfold ofstream_open. now rewrite H. Qed.

Lemma ofstream_open_failed {P : Platform} name w :
  writable (resolve name) = false ->
  ofstream_open name w = (Val {| is_open := false; target := resolve name |}, w).
Proof. intros H. unfold ofstream_open. now rewrite H. Qed.

(** The lines appended to a file that was just opened. *)
Lemma for_each_put {A} (f : A -> string) (l : list A) file :
  forall content fs text ticks log,
    for_each l (fun x => ofstream_put {| is_open := true; target := file |} (f x))
      {| files := <[file := content]> fs; console := text;
         clock := ticks; calls := log |}
    = (Val tt, {| files := <[file := content +:+ join (map f l)]> fs;
                  console := text; clock := ticks; calls := log |}).
Proof.
  induction l as [|x l IH]; intros content fs text ticks log.
  - simpl. unfold ret. now rewrite string_app_nil_r.
  - cbn [for_each map join]. unfold bind, ofstream_put at 1.
    cbn [is_open target files console clock calls].
    rewrite alter_insert_eq, IH. now rewrite string_app_assoc.
Qed.

(** Nothing is written through a stream that could not be opened. *)
Lemma for_each_put_closed {A} (f : A -> string) (l : list A) file w :
  for_each l (fun x => ofstream_put {| is_open := false; target := file |} (f x)) w
  = (Val tt, w).
Proof.
  induction l as [|x l IH]; [reflexivity|].
  cbn [for_each]. now rewrite (bind_val _ _ w tt w) by reflexivity.
Qed.

Lemma written_lookup {P : Platform} (fs : gmap string string) name text :
  writable (resolve name) = true ->
  written fs name text !! resolve name = Some text.
Proof. intros H. unfold written. rewrite H. apply lookup_insert_eq. Qed.

Lemma written_failed {P : Platform} (fs : gmap string string) name text :
  writable (resolve name) = false -> written fs name text = fs.
Proof. intros H. unfold written. now rewrite H. Qed.

Lemma written_other {P : Platform} (fs : gmap string string) name text file :
  file <> resolve name -> written fs name text !! file = fs !! file.
Proof.
  intros H. unfold written. destruct (writable (resolve name)); [|reflexivity].
  now apply lookup_insert_ne.
Qed.

(** ** Algorithm selection *)

Lemma multipleOutlets_true i p :
  multipleOutlets i p = true <-> p <> 0 /\ 3 <= i <= 5.
Proof.
  unfold multipleOutlets.
  rewrite !andb_true_iff, negb_true_iff, Z.eqb_neq, !Z.leb_le. tauto.
Qed.

Lemma multipleOutlets_false i p :
  multipleOutlets i p = false <-> p = 0 \/ i < 3 \/ 5 < i.
Proof.
  destruct (multipleOutlets i p) eqn:E.
  - apply multipleOutlets_true in E. split; [discriminate | lia].
  - split; [intros _ | reflexivity].
    destruct (Z.eq_dec p 0); [now left | right].
    destruct (Z_lt_dec i 3); [now left|].
    destruct (Z_lt_dec 5 i); [now right|].
    assert (multipleOutlets i p = true) by (apply multipleOutlets_true; lia).
    congruence.
Qed.

Lemma createMultipleAlgorithm_range i p :
  3 <= i <= 5 -> exists a, createMultipleAlgorithm i p = Some a.
Proof.
  intros H. assert (i = 3 \/ i = 4 \/ i = 5) as [-> | [-> | ->]] by lia;
    simpl; eauto.
Qed.

Lemma createAlgorithm_range i p :
  1 <= i <= 7 -> exists a, createAlgorithm i p = Some a.
Proof.
  intros H.
  assert (i = 1 \/ i = 2 \/ i = 3 \/ i = 4 \/ i = 5 \/ i = 6 \/ i = 7)
    as [-> | [-> | [-> | [-> | [-> | [-> | ->]]]]]] by lia;
    simpl; eauto.
Qed.

Lemma createAlgorithm_unknown i p :
  i < 1 \/ 7 < i -> createAlgorithm i p = None.
Proof.
  intros H. destruct i as [|q|q]; [reflexivity | | reflexivity].
  destruct q as [[[q|q|]|[q|q|]|]|[[q|q|]|[q|q|]|]|]; try reflexivity; lia.
Qed.

(** ** The two branches of [executeMeasurement] *)

Section RunnerFacts.

Context {P : Platform} {L : LfpLibrary}.

Ltac simpl_world := cbn [files console clock calls printed].

(* one step of a computation whose result is known by evaluation *)
Ltac run_step := erewrite bind_val by reflexivity; simpl_world.

(* a [printCells] step: the text it prints is named [t] *)
Ltac run_printCells t :=
  match goal with
  | |- context [bind (printCells ?label ?l) _ ?w0] =>
      let E := fresh "E" in
      destruct (printCells_run label l w0) as [t E];
      rewrite (bind_val _ _ _ _ _ E); clear E; simpl_world
  end.

Lemma measureMultiple_run m outlets i out p a w :
  createMultipleAlgorithm i p = Some a ->
  exists text,
    measureMultiple m outlets i out p w
    = (Val tt,
       {| files := written (files w) out (csv_text (executeMultiple a m outlets));
          console := console w +:+ text;
          clock := tl (tl (clock w));
          calls := (calls w ++ [CallExecuteMultiple a m outlets])%list |}).
Proof.
  intros Ha. unfold measureMultiple. rewrite Ha. cbv zeta.
  run_printCells t1. unfold invoke_executeMultiple. repeat run_step.
  run_printCells t2. repeat run_step.
  unfold written. destruct (writable (resolve out)) eqn:Hopen.
  - erewrite bind_val by (apply ofstream_open_done; exact Hopen). simpl_world.
    repeat run_step.
    rewrite alter_insert_eq, for_each_put, string_app_nil_l.
    unfold csv_text. rewrite !string_app_assoc. eauto.
  - erewrite bind_val by (apply ofstream_open_failed; exact Hopen).
    repeat run_step. rewrite for_each_put_closed.
    unfold printed. simpl_world. rewrite !string_app_assoc. eauto.
Qed.

Lemma measureSingle_run m outlet rest i out p a w :
  createAlgorithm i p = Some a ->
  exists text,
    measureSingle m (outlet :: rest) i out p w
    = (Val tt,
       {| files := written (files w) out (csv_text [execute a m outlet]);
          console := console w +:+ text;
          clock := tl (tl (clock w));
          calls := (calls w ++ [CallExecute a m outlet])%list |}).
Proof.
  intros Ha. unfold measureSingle. rewrite Ha. cbv zeta.
  unfold invoke_execute. repeat run_step.
  unfold written. destruct (writable (resolve out)) eqn:Hopen.
  - erewrite bind_val by (apply ofstream_open_done; exact Hopen). simpl_world.
    repeat run_step.
    unfold ofstream_put. cbn [is_open target files console clock calls].
    rewrite !alter_insert_eq, string_app_nil_l.
    unfold csv_text. cbn [map join].
    rewrite !string_app_assoc, string_app_nil_r. eauto.
  - erewrite bind_val by (apply ofstream_open_failed; exact Hopen).
    repeat run_step. unfold ofstream_put. cbn [is_open].
    unfold printed. simpl_world. rewrite ?string_app_assoc. eauto.
Qed.

(** A null algorithm pointer: the run stops at the call through it, after
    the first outlet was printed; nothing was written to a file and no
    algorithm was called. *)
Lemma measureSingle_null m outlet rest i out p w :
  createAlgorithm i p = None ->
  exists text,
    measureSingle m (outlet :: rest) i out p w
    = (Ub NullObject,
       {| files := files w; console := console w +:+ text;
          clock := tl (clock w); calls := calls w |}).
Proof.
  intros Ha. unfold measureSingle. rewrite Ha. cbv zeta.
  unfold invoke_execute. repeat run_step.
  erewrite bind_ub by reflexivity. eauto.
Qed.

(** No outlet at all: the run stops at the first [outletLocations[0]]. *)
Lemma measureSingle_empty m i out p w :
  measureSingle m [] i out p w = (Ub VectorOutOfRange, w).
Proof. reflexivity. Qed.

(** What [executeMeasurement] does before it branches. *)
Lemma executeMeasurement_run d o i out p w :
  exists text,
    executeMeasurement d o i out p w
    = (if multipleOutlets i p then measureMultiple else measureSingle)
        (loadGdal (files w) (resolve d)) (loadOutletLocations (files w) o) i out p
        {| files := files w; console := console w +:+ text;
           clock := clock w; calls := (calls w ++ [CallLoadGdal d])%list |}.
Proof.
  unfold executeMeasurement.
  repeat run_step. cbv zeta. repeat run_step.
  rewrite !printed_printed. unfold printed. simpl_world.
  rewrite !string_app_assoc.
  destruct (multipleOutlets i p); eauto.
Qed.

(** ** The four ways a measurement goes *)

Lemma executeMeasurement_multiple d o i out p w :
  multipleOutlets i p = true ->
  exists a text,
    createMultipleAlgorithm i p = Some a
    /\ executeMeasurement d o i out p w
       = (Val tt,
          {| files :=
               written (files w) out
                 (csv_text
                    (executeMultiple a (loadGdal (files w) (resolve d))
                       (loadOutletLocations (files w) o)));
             console := console w +:+ text;
             clock := tl (tl (clock w));
             calls :=
               (calls w
                ++ [CallLoadGdal d;
                    CallExecuteMultiple a (loadGdal (files w) (resolve d))
                      (loadOutletLocations (files w) o)])%list |}).
Proof.
  intros Hmode.
  destruct (createMultipleAlgorithm_range i p) as [a Ha];
    [apply multipleOutlets_true in Hmode; tauto|].
  destruct (executeMeasurement_run d o i out p w) as [t0 ->]. rewrite Hmode.
  match goal with
  | |- context [measureMultiple ?m ?l _ _ _ ?w0] =>
      destruct (measureMultiple_run m l i out p a w0 Ha) as [t1 ->]
  end.
  simpl_world. rewrite string_app_assoc, <- app_assoc. eauto.
Qed.

Lemma executeMeasurement_single d o i out p w a first rest :
  multipleOutlets i p = false ->
  loadOutletLocations (files w) o = first :: rest ->
  createAlgorithm i p = Some a ->
  exists text,
    executeMeasurement d o i out p w
    = (Val tt,
       {| files :=
            written (files w) out
              (csv_text [execute a (loadGdal (files w) (resolve d)) first]);
          console := console w +:+ text;
          clock := tl (tl (clock w));
          calls :=
            (calls w
             ++ [CallLoadGdal d; CallExecute a (loadGdal (files w) (resolve d)) first])%list |}).
Proof.
  intros Hmode Houtlets Ha.
  destruct (executeMeasurement_run d o i out p w) as [t0 ->].
  rewrite Hmode, Houtlets.
  match goal with
  | |- context [measureSingle ?m _ _ _ _ ?w0] =>
      destruct (measureSingle_run m first rest i out p a w0 Ha) as [t1 ->]
  end.
  simpl_world. rewrite string_app_assoc, <- app_assoc. eauto.
Qed.

Lemma executeMeasurement_null d o i out p w first rest :
  multipleOutlets i p = false ->
  loadOutletLocations (files w) o = first :: rest ->
  createAlgorithm i p = None ->
  exists text,
    executeMeasurement d o i out p w
    = (Ub NullObject,
       {| files := files w; console := console w +:+ text;
          clock := tl (clock w);
          calls := (calls w ++ [CallLoadGdal d])%list |}).
Proof.
  intros Hmode Houtlets Ha.
  destruct (executeMeasurement_run d o i out p w) as [t0 ->].
  rewrite Hmode, Houtlets.
  match goal with
  | |- context [measureSingle ?m _ _ _ _ ?w0] =>
      destruct (measureSingle_null m first rest i out p w0 Ha) as [t1 ->]
  end.
  simpl_world. rewrite string_app_assoc. eauto.
Qed.

Lemma executeMeasurement_empty d o i out p w :
  multipleOutlets i p = false ->
  loadOutletLocations (files w) o = [] ->
  exists text,
    executeMeasurement d o i out p w
    = (Ub VectorOutOfRange,
       {| files := files w; console := console w +:+ text;
          clock := clock w;
          calls := (calls w ++ [CallLoadGdal d])%list |}).
Proof.
  intros Hmode Houtlets.
  destruct (executeMeasurement_run d o i out p w) as [t0 ->].
  rewrite Hmode, Houtlets, measureSingle_empty. eauto.
Qed.

(** ** [main] *)

Lemma main_usage argv w :
  (List.length argv < 4)%nat -> main argv w = (Val 0, printed w usage_text).
Proof.
  intros Hlen. unfold main. cbv zeta.
  replace (Z.of_nat (List.length argv) <? 4) with true
    by (symmetry; apply Z.ltb_lt; lia).
  now rewrite (bind_val _ _ _ _ _ (printUsage_run w)).
Qed.

Lemma main_three_arguments a0 a1 a2 a3 w :
  main [a0; a1; a2; a3] w = (Ub NullCString, w).
Proof. reflexivity. Qed.

Lemma main_run a0 d o i out extra w :
  main (a0 :: d :: o :: i :: out :: extra) w
  = (executeMeasurement d o (atoi i) out
       (match extra with p :: _ => atoi p | [] => 0 end) ;;; ret 0) w.
Proof.
  unfold main. cbv zeta.
  replace (Z.of_nat (List.length (a0 :: d :: o :: i :: out :: extra)) <? 4)
    with false by (symmetry; apply Z.ltb_ge; simpl List.length; lia).
  repeat run_step.
  destruct extra as [|p extra].
  - reflexivity.
  - replace (Z.of_nat (List.length (a0 :: d :: o :: i :: out :: p :: extra)) >? 5)
      with true by (symmetry; apply Z.gtb_lt; simpl List.length; lia).
    reflexivity.
Qed.

End RunnerFacts.

(** ** Lines of a result file *)

Lemma line_count_app a b : line_count (a +:+ b) = (line_count a + line_count b)%nat.
Proof.
  induction a as [|c a IH]; [reflexivity|].
  rewrite string_app_cons. cbn [line_count]. rewrite IH. lia.
Qed.

Lemma line_count_uint d : line_count (NilZero.string_of_uint d) = 0%nat.
Proof.
  destruct d; try reflexivity; unfold NilZero.string_of_uint;
    cbn [NilEmpty.string_of_uint line_count];
    match goal with
    | |- context [NilEmpty.string_of_uint ?u] =>
        induction u; cbn [NilEmpty.string_of_uint line_count]; auto
    end.
Qed.

Lemma line_count_show_int z : line_count (show_int z) = 0%nat.
Proof.
  unfold show_int, NilZero.string_of_int.
  destruct (Z.to_int z); cbn [line_count]; now rewrite line_count_uint.
Qed.



Section RunFacts.

Context {P : Platform} {L : LfpLibrary}.

(** A measurement stops only at an empty outlet vector or at a null
    algorithm. *)
Lemma executeMeasurement_faults d o i out p w f w' :
  executeMeasurement d o i out p w = (Ub f, w') ->
  f = VectorOutOfRange \/ f = NullObject.
Proof.
  intros Hrun. destruct (multipleOutlets i p) eqn:Hmode.
  - destruct (executeMeasurement_multiple d o i out p w Hmode) as (a & t & _ & E).
    congruence.
  - destruct (loadOutletLocations (files w) o) as [|first rest] eqn:Houtlets.
    + destruct (executeMeasurement_empty d o i out p w Hmode Houtlets) as [t E].
      left. congruence.
    + destruct (createAlgorithm i p) as [a|] eqn:Ha.
      * destruct (executeMeasurement_single d o i out p w a first rest
                    Hmode Houtlets Ha) as [t E]. congruence.
      * destruct (executeMeasurement_null d o i out p w first rest
                    Hmode Houtlets Ha) as [t E]. right. congruence.
Qed.

(** Whenever [main] returns, it returns 0. *)
Lemma main_returns_zero argv w c w' : main argv w = (Val c, w') -> c = 0.
Proof.
  destruct argv as [|a0 [|d [|o [|i [|out extra]]]]];
    try (rewrite main_usage by (simpl; lia); congruence).
  - rewrite main_three_arguments. discriminate.
  - rewrite main_run. unfold bind.
    destruct (executeMeasurement _ _ _ _ _ w) as [[[]|f] w1]; unfold ret; congruence.
Qed.

Lemma main_no_null_string argv w w' :
  (5 <= List.length argv)%nat -> main argv w <> (Ub NullCString, w').
Proof.
  intros Hlen.
  destruct argv as [|a0 [|d [|o [|i [|out extra]]]]]; simpl in Hlen; try lia.
  rewrite main_run. unfold bind.
  destruct (executeMeasurement _ _ _ _ _ w) as [[[]|f] w1] eqn:E;
    [unfold ret; congruence|].
  apply executeMeasurement_faults in E. intros [= -> _]. destruct E; discriminate.
Qed.

End RunFacts.

(** * The claims *)

(** C1. The fifth parameter and the algorithm index select the mode: with
    a non-zero parameter and an index from 3 to 5 the multi-outlet object
    is created and [executeMultiple] is called on the whole outlet list;
    with a zero parameter, or an index among 1, 2, 6, 7, the single-outlet
    branch runs and the one algorithm call is [execute] on the first
    outlet. A command line without a fifth argument runs with parameter 0.
    Algorithm 2 receives the parameter as its task creation limit;
    algorithms 1, 6 and 7 are built without it. *)
Theorem algorithm_parameter_selects_mode {P : Platform} {L : LfpLibrary}
    (d o : string) (i : Z) (out : string) (p : Z) (w : World) :
  (p <> 0 -> 3 <= i <= 5 ->
   exists a w',
     createMultipleAlgorithm i p = Some a
     /\ executeMeasurement d o i out p w = (Val tt, w')
     /\ calls w'
        = (calls w
           ++ [CallLoadGdal d;
               CallExecuteMultiple a (loadGdal (files w) (resolve d))
                 (loadOutletLocations (files w) o)])%list)
  /\ (p = 0 \/ i = 1 \/ i = 2 \/ i = 6 \/ i = 7 ->
      multipleOutlets i p = false
      /\ forall first rest,
           1 <= i <= 7 ->
           loadOutletLocations (files w) o = first :: rest ->
           exists a w',
             createAlgorithm i p = Some a
             /\ executeMeasurement d o i out p w = (Val tt, w')
             /\ calls w'
                = (calls w
                   ++ [CallLoadGdal d;
                       CallExecute a (loadGdal (files w) (resolve d)) first])%list
             /\ (writable (resolve out) = true ->
                 files w' !! resolve out
                 = Some (csv_text
                           [execute a (loadGdal (files w) (resolve d)) first])))
  /\ (forall a0 index,
        main [a0; d; o; index; out] w
        = (executeMeasurement d o (atoi index) out 0 ;;; ret 0) w)
  /\ createAlgorithm 2 p = Some (RecursiveTaskLfp p)
  /\ createAlgorithm 1 p = Some RecursiveSeqLfp
  /\ createAlgorithm 6 p = Some DoubleDropSeqLfp
  /\ createAlgorithm 7 p = Some DoubleDropOmpLfp.
Proof.
  split; [|split; [|split; [|repeat split]]].
  - intros Hp Hi.
    assert (Hmode : multipleOutlets i p = true)
      by (apply multipleOutlets_true; tauto).
    destruct (executeMeasurement_multiple d o i out p w Hmode)
      as (a & t & Ha & E).
    eexists a, _. split; [exact Ha|]. split; [exact E|]. reflexivity.
  - intros Hcase.
    assert (Hmode : multipleOutlets i p = false)
      by (apply multipleOutlets_false; lia).
    split; [exact Hmode|]. intros first rest Hi Houtlets.
    destruct (createAlgorithm_range i p Hi) as [a Ha].
    destruct (executeMeasurement_single d o i out p w a first rest
                Hmode Houtlets Ha) as [t E].
    eexists a, _. split; [exact Ha|]. split; [exact E|].
    split; [reflexivity|]. cbn [files]. apply written_lookup.
  - intros a0 index. apply (main_run a0 d o index out []).
Qed.

Lemma algorithm_parameter_selects_mode_witness :
  (exists w',
     executeMeasurement (P := sample_platform) (L := terminal_library)
       "dir.tif" "outlets.txt" 3 "out.csv" 1 sample_world = (Val tt, w')
     /\ calls w'
        = [CallLoadGdal "dir.tif";
           CallExecuteMultiple TopDownMaxSeqLfp terminal_grid
             [{| row := 2; col := 2 |}; {| row := 3; col := 1 |}]])
  /\ (exists w',
        executeMeasurement (P := sample_platform) (L := terminal_library)
          "dir.tif" "outlets.txt" 3 "out.csv" 0 sample_world = (Val tt, w')
        /\ calls w'
           = [CallLoadGdal "dir.tif";
              CallExecute TopDownMaxSeqLfp terminal_grid {| row := 2; col := 2 |}]).
Proof.
  split.
  - destruct (algorithm_parameter_selects_mode (P := sample_platform) (L := terminal_library)
                "dir.tif" "outlets.txt" 3 "out.csv" 1 sample_world)
      as (Hmulti & _).
    destruct Hmulti as (a & w' & Ha & Hrun & Hcalls); [lia | lia |].
    injection Ha as <-. exists w'. split; [exact Hrun | exact Hcalls].
  - destruct (algorithm_parameter_selects_mode (P := sample_platform) (L := terminal_library)
                "dir.tif" "outlets.txt" 3 "out.csv" 0 sample_world)
      as (_ & Hsingle & _).
    destruct Hsingle as (_ & Hsingle); [left; reflexivity|].
    destruct (Hsingle {| row := 2; col := 2 |} [{| row := 3; col := 1 |}])
      as (a & w' & Ha & Hrun & Hcalls & _); [lia | reflexivity |].
    injection Ha as <-. exists w'. split; [exact Hrun | exact Hcalls].
Defined.

(** With no argument at all the usage text is printed and [main] falls off
    its end: the exit status is 0, not a non-zero one. *)
Lemma usage_run_exits_zero :
  exit_code (main (P := sample_platform) (L := terminal_library) ["lfp"] sample_world) = Some 0
  /\ ~ (exists c,
          exit_code (main (P := sample_platform) (L := terminal_library) ["lfp"] sample_world) = Some c
          /\ c <> 0).
Proof.
  split; [reflexivity|].
  intros (c & Hc & Hne). apply Hne.
  change (Some 0 = Some c) in Hc. congruence.
Qed.

(** C2, as the code has it. With [argc < 4] the usage text is printed and
    the exit status is 0; whenever [main] returns, after the usage text or
    after a completed run, the exit status is 0. *)
Theorem main_exit_status_is_zero {P : Platform} {L : LfpLibrary} (argv : list string) (w : World) :
  ((List.length argv < 4)%nat ->
   main argv w = (Val 0, printed w usage_text)
   /\ exit_code (main argv w) = Some 0)
  /\ (forall c w', main argv w = (Val c, w') -> c = 0).
Proof.
  split.
  - intros Hlen. rewrite (main_usage argv w Hlen). split; reflexivity.
  - intros c w'. apply main_returns_zero.
Qed.

Lemma main_exit_status_is_zero_witness :
  (List.length ["lfp"; "dir.tif"] < 4)%nat
  /\ exit_code (main (P := sample_platform) (L := terminal_library) ["lfp"; "dir.tif"] sample_world) = Some 0
  /\ exit_code
       (main (P := sample_platform) (L := terminal_library)
          ["lfp"; "dir.tif"; "outlets.txt"; "1"; "out.csv"] sample_world)
     = Some 0.
Proof.
  split; [simpl; lia|]. split.
  - apply (main_exit_status_is_zero (P := sample_platform) (L := terminal_library)
             ["lfp"; "dir.tif"] sample_world). simpl; lia.
  - destruct (main (P := sample_platform) (L := terminal_library)
                ["lfp"; "dir.tif"; "outlets.txt"; "1"; "out.csv"] sample_world)
      as [[c|f] w'] eqn:E; [|discriminate E].
    rewrite (proj2 (main_exit_status_is_zero (P := sample_platform) (L := terminal_library)
                      ["lfp"; "dir.tif"; "outlets.txt"; "1"; "out.csv"]
                      sample_world) c w' E).
    reflexivity.
Defined.

(** C3 at three arguments after the program name, one fewer than the four
    the usage text requires: the guard [argc < 4] lets the invocation
    through, so no usage text is printed; the run stops at the null
    [argv[4]] with the console untouched. *)
Theorem three_arguments_print_no_usage :
  main (P := sample_platform) (L := terminal_library) ["lfp"; "dir.tif"; "outlets.txt"; "3"] sample_world
  = (Ub NullCString, sample_world)
  /\ console sample_world = "".
Proof. split; reflexivity. Qed.





(** C7, what the code does instead. For an algorithm index outside 1..7
    [createAlgorithm] returns a null pointer and [executeMeasurement] calls
    [execute] through it: the run stops there in undefined behaviour, with
    no error reported and no exit status. Up to that point no algorithm
    was called and no file was written. *)
Theorem unknown_algorithm_index_calls_null {P : Platform} {L : LfpLibrary}
    (d o : string) (i : Z) (out : string) (p : Z) (w : World)
    (first : CellLocation) (rest : list CellLocation) :
  i < 1 \/ 7 < i ->
  loadOutletLocations (files w) o = first :: rest ->
  createAlgorithm i p = None
  /\ exists text,
       executeMeasurement d o i out p w
       = (Ub NullObject,
          {| files := files w; console := console w +:+ text;
             clock := tl (clock w);
             calls := (calls w ++ [CallLoadGdal d])%list |}).
Proof.
  intros Hi Houtlets.
  assert (Ha : createAlgorithm i p = None) by now apply createAlgorithm_unknown.
  split; [exact Ha|].
  apply (executeMeasurement_null d o i out p w first rest); auto.
  apply multipleOutlets_false. lia.
Qed.

Lemma unknown_algorithm_index_calls_null_witness :
  (9 < 1 \/ 7 < 9)
  /\ loadOutletLocations (P := sample_platform) (files sample_world) "outlets.txt"
     = {| row := 2; col := 2 |} :: [{| row := 3; col := 1 |}]
  /\ createAlgorithm 9 0 = None
  /\ fst (executeMeasurement (P := sample_platform) (L := terminal_library)
            "dir.tif" "outlets.txt" 9 "out.csv" 0 sample_world)
     = Ub NullObject
  /\ exit_code
       (main (P := sample_platform) (L := terminal_library)
          ["lfp"; "dir.tif"; "outlets.txt"; "9"; "out.csv"] sample_world)
     = None.
Proof.
  split; [right; lia|]. split; [reflexivity|].
  destruct (unknown_algorithm_index_calls_null (P := sample_platform) (L := terminal_library)
              "dir.tif" "outlets.txt" 9 "out.csv" 0 sample_world
              {| row := 2; col := 2 |} [{| row := 3; col := 1 |}])
    as (Ha & text & Hrun); [right; lia | reflexivity |].
  split; [exact Ha|]. split; [now rewrite Hrun | reflexivity].
Defined.

(** Scenario S5: on the 3 x 3 grid the outlet (4, 4) is out of bounds, and
    algorithm 1 is called on it all the same. *)
Lemma out_of_bounds_outlet_is_processed :
  inBounds terminal_grid {| row := 4; col := 4 |} = false
  /\ loadOutletLocations (P := sample_platform) sample_files "outside.txt"
     = [{| row := 4; col := 4 |}]
  /\ calls (snd (main (P := sample_platform) (L := terminal_library)
                   ["lfp"; "dir.tif"; "outside.txt"; "1"; "out.csv"] sample_world))
     = [CallLoadGdal "dir.tif";
        CallExecute RecursiveSeqLfp terminal_grid {| row := 4; col := 4 |}].
Proof. repeat split. Qed.

(** C8, as the code has it. The runner makes no bounds check and raises no
    error for an outlet outside the grid: in multi-outlet mode
    [executeMultiple] is called on the outlet list as read, an
    out-of-bounds location included wherever it stands in the list; in
    single-outlet mode with an index of 1..7 [execute] is called on the
    first outlet as read, also when it is out of bounds. *)
Theorem outlets_are_not_bounds_checked {P : Platform} {L : LfpLibrary}
    (d o : string) (i : Z) (out : string) (p : Z) (w : World)
    (bad : CellLocation) :
  inBounds (loadGdal (files w) (resolve d)) bad = false ->
  (multipleOutlets i p = true ->
   In bad (loadOutletLocations (files w) o) ->
   exists a,
     createMultipleAlgorithm i p = Some a
     /\ calls (snd (executeMeasurement d o i out p w))
        = (calls w
           ++ [CallLoadGdal d;
               CallExecuteMultiple a (loadGdal (files w) (resolve d))
                 (loadOutletLocations (files w) o)])%list
     /\ call_out_of_bounds
          (CallExecuteMultiple a (loadGdal (files w) (resolve d))
             (loadOutletLocations (files w) o)) = true)
  /\ (multipleOutlets i p = false -> 1 <= i <= 7 ->
      forall rest,
        loadOutletLocations (files w) o = bad :: rest ->
        exists a,
          createAlgorithm i p = Some a
          /\ calls (snd (executeMeasurement d o i out p w))
             = (calls w
                ++ [CallLoadGdal d;
                    CallExecute a (loadGdal (files w) (resolve d)) bad])%list
          /\ call_out_of_bounds
               (CallExecute a (loadGdal (files w) (resolve d)) bad) = true).
Proof.
  intros Hbad. split.
  - intros Hmode Hin.
    destruct (executeMeasurement_multiple d o i out p w Hmode)
      as (a & t & Ha & E).
    exists a. rewrite E. split; [exact Ha|]. split; [reflexivity|].
    cbn [call_out_of_bounds]. apply existsb_exists.
    exists bad. split; [exact Hin | now rewrite Hbad].
  - intros Hmode Hi rest Houtlets.
    destruct (createAlgorithm_range i p Hi) as [a Ha].
    destruct (executeMeasurement_single d o i out p w a bad rest
                Hmode Houtlets Ha) as [t E].
    exists a. rewrite E. split; [exact Ha|]. split; [reflexivity|].
    cbn [call_out_of_bounds]. now rewrite Hbad.
Qed.

Lemma outlets_are_not_bounds_checked_witness :
  inBounds (@loadGdal terminal_library (files sample_world) "dir.tif")
    {| row := 4; col := 4 |} = false
  /\ In {| row := 4; col := 4 |}
       (loadOutletLocations (P := sample_platform) (files sample_world) "mixed.txt")
  /\ calls (snd (executeMeasurement (P := sample_platform) (L := terminal_library)
                   "dir.tif" "mixed.txt" 3 "out.csv" 1 sample_world))
     = [CallLoadGdal "dir.tif";
        CallExecuteMultiple TopDownMaxSeqLfp terminal_grid
          [{| row := 2; col := 2 |}; {| row := 4; col := 4 |}]]
  /\ calls (snd (executeMeasurement (P := sample_platform) (L := terminal_library)
                   "dir.tif" "outside.txt" 6 "out.csv" 0 sample_world))
     = [CallLoadGdal "dir.tif";
        CallExecute DoubleDropSeqLfp terminal_grid {| row := 4; col := 4 |}].
Proof.
  assert (Hin : In {| row := 4; col := 4 |}
                  (loadOutletLocations (P := sample_platform)
                     (files sample_world) "mixed.txt"))
    by (right; left; reflexivity).
  split; [reflexivity|]. split; [exact Hin|]. split.
  - destruct (outlets_are_not_bounds_checked (P := sample_platform)
                (L := terminal_library)
                "dir.tif" "mixed.txt" 3 "out.csv" 1 sample_world
                {| row := 4; col := 4 |} eq_refl)
      as (Hmulti & _).
    destruct (Hmulti eq_refl Hin) as (a & Ha & Hcalls & _).
    injection Ha as <-. rewrite Hcalls. reflexivity.
  - destruct (outlets_are_not_bounds_checked (P := sample_platform)
                (L := terminal_library)
                "dir.tif" "outside.txt" 6 "out.csv" 0 sample_world
                {| row := 4; col := 4 |} eq_refl)
      as (_ & Hsingle).
    destruct (Hsingle eq_refl ltac:(lia) [] eq_refl) as (a & Ha & Hcalls & _).
    injection Ha as <-. rewrite Hcalls. reflexivity.
Defined.

(** C9. With exactly three arguments after the program name ([argc] = 4)
    [main] does not take the usage branch: it reads [argv[4]], the
    terminating null entry, as the output file name and stops there. With
    at least four arguments after the program name [argv[4]] is a string
    and [main] never stops at a null string. *)
Theorem three_arguments_pass_the_guard {P : Platform} {L : LfpLibrary} :
  (forall a0 a1 a2 a3 w,
     (Z.of_nat (List.length [a0; a1; a2; a3]) <? 4) = false
     /\ [a0; a1; a2; a3] !! 4%nat = @None string
     /\ main [a0; a1; a2; a3] w = (Ub NullCString, w))
  /\ (forall argv w,
        (5 <= List.length argv)%nat ->
        (exists out : string, argv !! 4%nat = Some out)
        /\ forall w', main argv w <> (Ub NullCString, w')).
Proof.
  split.
  - intros a0 a1 a2 a3 w. repeat split.
  - intros argv w Hlen. split.
    + destruct argv as [|a0 [|d [|o [|i [|out extra]]]]]; simpl in Hlen; try lia.
      now exists out.
    + intros w'. now apply main_no_null_string.
Qed.

Lemma three_arguments_pass_the_guard_witness :
  main (P := sample_platform) (L := terminal_library) ["lfp"; "dir.tif"; "outlets.txt"; "1"] sample_world
  = (Ub NullCString, sample_world)
  /\ (5 <= List.length ["lfp"; "dir.tif"; "outlets.txt"; "1"; "out.csv"])%nat
  /\ main (P := sample_platform) (L := terminal_library)
       ["lfp"; "dir.tif"; "outlets.txt"; "1"; "out.csv"] sample_world
     <> (Ub NullCString, sample_world).
Proof.
  destruct (three_arguments_pass_the_guard (P := sample_platform) (L := terminal_library))
    as (Hthree & Hfour).
  split; [apply (Hthree "lfp" "dir.tif" "outlets.txt" "1" sample_world)|].
  split; [simpl; lia|].
  apply (Hfour ["lfp"; "dir.tif"; "outlets.txt"; "1"; "out.csv"] sample_world).
  simpl; lia.
Defined.

(** C10. The single-outlet branch reads [outletLocations[0]] without
    checking that there is one: when the outlet file yields no location
    (it is missing, empty, or no triple can be read at its start) the
    access is out of bounds and the run stops there; when the list is not
    empty the run never stops at that access. *)
Theorem single_outlet_branch_needs_an_outlet {P : Platform} {L : LfpLibrary}
    (d o : string) (i : Z) (out : string) (p : Z) (w : World) :
  multipleOutlets i p = false ->
  (loadOutletLocations (files w) o = [] ->
   exists text,
     executeMeasurement d o i out p w
     = (Ub VectorOutOfRange,
        {| files := files w; console := console w +:+ text;
           clock := clock w; calls := (calls w ++ [CallLoadGdal d])%list |}))
  /\ (files w !! resolve o = None -> loadOutletLocations (files w) o = [])
  /\ (files w !! resolve o = Some "" -> loadOutletLocations (files w) o = [])
  /\ (forall text,
        files w !! resolve o = Some text -> unreadable text ->
        loadOutletLocations (files w) o = [])
  /\ (loadOutletLocations (files w) o <> [] ->
      forall w', executeMeasurement d o i out p w <> (Ub VectorOutOfRange, w')).
Proof.
  intros Hmode.
  assert (Hbad : forall text, files w !! resolve o = Some text -> unreadable text ->
                              loadOutletLocations (files w) o = []).
  { intros text Hfile Hun. unfold loadOutletLocations.
    rewrite (fstream_open_found _ _ _ Hfile). now apply read_outlets_stop. }
  split; [now apply executeMeasurement_empty|].
  split; [apply loadOutletLocations_missing|].
  split; [intros Hfile; apply (Hbad "" Hfile unreadable_empty)|].
  split; [exact Hbad|].
  intros Hne w' Hrun.
  destruct (loadOutletLocations (files w) o) as [|first rest] eqn:Houtlets;
    [congruence|].
  destruct (createAlgorithm i p) as [a|] eqn:Ha.
  - destruct (executeMeasurement_single d o i out p w a first rest
                Hmode Houtlets Ha) as [t E]. congruence.
  - destruct (executeMeasurement_null d o i out p w first rest
                Hmode Houtlets Ha) as [t E]. congruence.
Qed.

Lemma single_outlet_branch_needs_an_outlet_witness :
  multipleOutlets 1 0 = false
  /\ loadOutletLocations (P := sample_platform) (files sample_world) "missing.txt" = []
  /\ loadOutletLocations (P := sample_platform) (files sample_world) "empty.txt" = []
  /\ fst (executeMeasurement (P := sample_platform) (L := terminal_library)
            "dir.tif" "empty.txt" 1 "out.csv" 0 sample_world)
     = Ub VectorOutOfRange.
Proof.
  split; [reflexivity|].
  destruct (single_outlet_branch_needs_an_outlet (P := sample_platform) (L := terminal_library)
              "dir.tif" "missing.txt" 1 "out.csv" 0 sample_world eq_refl)
    as (_ & Hmissing & _).
  split; [apply Hmissing; reflexivity|].
  destruct (single_outlet_branch_needs_an_outlet (P := sample_platform) (L := terminal_library)
              "dir.tif" "empty.txt" 1 "out.csv" 0 sample_world eq_refl)
    as (Hstop & _ & Hempty & _).
  split; [apply Hempty; reflexivity|].
  destruct Hstop as [text Hrun]; [apply Hempty; reflexivity|].
  now rewrite Hrun.
Defined.

(** * Further properties of the runner *)

(** ** Numbers as the program prints them *)

Lemma uint_digits d : all_digits (NilEmpty.string_of_uint d) = true.
Proof. induction d; simpl; auto. Qed.

(* the value of a digit character that is known *)
Ltac eval_digit :=
  match goal with
  | |- context [digit_value ?c] =>
      let v := eval vm_compute in (digit_value c) in
      change (digit_value c) with v
  end.

Lemma uint_value_acc d :
  forall acc,
    Z.pos (Pos.of_uint_acc d acc)
    = Z.pos acc * 10 ^ Z.of_nat (String.length (NilEmpty.string_of_uint d))
      + decimal_value (NilEmpty.string_of_uint d).
Proof.
  induction d; intros acc;
    cbn [Pos.of_uint_acc NilEmpty.string_of_uint String.length decimal_value];
    try (rewrite IHd, Nat2Z.inj_succ, Z.pow_succ_r by lia;
         rewrite ?Pos2Z.inj_add, Pos2Z.inj_mul;
         eval_digit; ring).
  simpl. lia.
Qed.

Lemma uint_value d :
  decimal_value (NilEmpty.string_of_uint d) = Z.of_uint d.
Proof.
  unfold Z.of_uint.
  induction d;
    cbn [Pos.of_uint NilEmpty.string_of_uint decimal_value];
    try (cbn [Z.of_N]; rewrite uint_value_acc; eval_digit; ring).
  - reflexivity.
  - rewrite IHd. eval_digit. ring.
Qed.

Lemma positive_digit_string p :
  digit_string (NilZero.string_of_uint (Pos.to_uint p))
  /\ decimal_value (NilZero.string_of_uint (Pos.to_uint p)) = Z.pos p.
Proof.
  pose proof (Unsigned.to_uint_nonnil p) as Hnil.
  pose proof (Unsigned.of_to p) as Hval.
  destruct (Pos.to_uint p) eqn:E; try congruence;
    (split; [split; [discriminate | apply (uint_digits (_ u))] |]);
    unfold NilZero.string_of_uint; rewrite uint_value; unfold Z.of_uint;
    now rewrite Hval.
Qed.

(** The text [operator<<] writes for an [int] is a literal of that
    [int]. *)
Lemma show_int_literal z : fits_int z -> int_literal (show_int z) z.
Proof.
  intros Hfit. unfold show_int. destruct z as [|p|p]; cbn [Z.to_int NilZero.string_of_int].
  - apply (literal_unsigned "0"); [split; [discriminate | reflexivity] | exact Hfit].
  - destruct (positive_digit_string p) as [Hds Hv].
    rewrite <- Hv. apply literal_unsigned; [exact Hds | now rewrite Hv].
  - destruct (positive_digit_string p) as [Hds Hv].
    change (Z.neg p) with (- Z.pos p) in *. rewrite <- Hv.
    apply literal_minus; [exact Hds | now rewrite Hv].
Qed.

Lemma to_int_fits z : fits_int z -> to_int z = z.
Proof.
  unfold fits_int, INT_MIN, INT_MAX, to_int. intros H.
  rewrite Z.mod_small; lia.
Qed.

Lemma literal_sign_digits tok z :
  int_literal tok z ->
  exists (negative : bool) ds,
    digit_string ds
    /\ z = (if negative then - decimal_value ds else decimal_value ds)
    /\ forall rest,
         skipws (tok +:+ rest) = tok +:+ rest
         /\ get_sign (tok +:+ rest) = (negative, ds +:+ rest).
Proof.
  intros [ds Hds Hfit | ds Hds Hfit | ds Hds Hfit].
  - exists false, ds. split; [exact Hds|]. split; [reflexivity|]. intros rest.
    destruct (digit_string_head _ Hds) as (c & r & -> & Hc).
    destruct (digit_not_sign _ Hc) as [Hm Hp].
    rewrite string_app_cons. cbn [skipws get_sign].
    now rewrite (digit_not_space _ Hc), Hm, Hp.
  - exists false, ds. split; [exact Hds|]. split; [reflexivity|]. intros rest.
    rewrite string_app_cons. split; reflexivity.
  - exists true, ds. split; [exact Hds|]. split; [reflexivity|]. intros rest.
    rewrite string_app_cons. split; reflexivity.
Qed.

(** [atoi] reads a literal that fits an [int], after white space and before
    anything that is not a digit, as the integer it denotes. *)
Lemma atoi_literal ws tok z rest :
  blank ws -> int_literal tok z -> starts_with_digit rest = false ->
  atoi (ws +:+ tok +:+ rest) = z.
Proof.
  intros Hws Hlit Hrest.
  assert (Hfit : fits_int z) by (destruct Hlit; assumption).
  destruct (literal_sign_digits _ _ Hlit) as (negative & ds & Hds & -> & Hrun).
  destruct (Hrun rest) as [Hskip Hsign].
  unfold atoi, strtol. rewrite (skipws_blank _ _ Hws), Hskip, Hsign.
  rewrite (get_digits_run ds rest (proj2 Hds) Hrest).
  replace (0 * 10 ^ Z.of_nat (String.length ds) + decimal_value ds)
    with (decimal_value ds) by lia.
  cbv zeta.
  destruct negative;
    (rewrite Z.min_r, Z.max_r
       by (unfold fits_int, INT_MIN, INT_MAX, LONG_MIN, LONG_MAX in *; lia));
    now apply to_int_fits.
Qed.

Lemma atoi_show_int z : fits_int z -> atoi (show_int z) = z.
Proof.
  intros Hfit.
  rewrite <- (string_app_nil_r (show_int z)).
  apply (atoi_literal "" (show_int z) z ""); [reflexivity | | reflexivity].
  now apply show_int_literal.
Qed.

(** ** [printCells] *)

Lemma line_count_cell_line c : line_count (cell_line c) = 1%nat.
Proof.
  unfold cell_line. now rewrite !line_count_app, !line_count_show_int.
Qed.

Lemma line_count_cell_lines cells :
  line_count (join (map cell_line cells)) = List.length cells.
Proof.
  induction cells as [|c l IH]; [reflexivity|].
  cbn [map join List.length]. rewrite line_count_app, line_count_cell_line. lia.
Qed.

Lemma firstn_print_limit (cells : list CellLocation) :
  firstn (Z.to_nat (Z.min (Z.of_nat (List.length cells)) cellPrintLimit)) cells
  = firstn 8 cells.
Proof.
  unfold cellPrintLimit.
  destruct (Nat.le_gt_cases (List.length cells) 8) as [Hle|Hgt].
  - rewrite Z.min_l, Nat2Z.id by lia.
    now rewrite firstn_all, (firstn_all2 cells Hle).
  - rewrite Z.min_r by lia. reflexivity.
Qed.

(** X1. [printCells] only writes to the console: the count of the cells,
    then the first eight cells at most, one per line and in order, then a
    line of dots when there are more than eight. The text has at most ten
    lines more than the label. *)
Theorem printCells_prints_at_most_eight
    (label : string) (cells : list CellLocation) (w : World) :
  printCells label cells w = (Val tt, printed w (printCells_text label cells))
  /\ line_count (printCells_text label cells)
     = (line_count label + 1 + Nat.min (List.length cells) 8
        + (if (8 <? List.length cells)%nat then 1 else 0))%nat
  /\ (line_count (printCells_text label cells) <= line_count label + 10)%nat.
Proof.
  assert (Hlines :
            line_count (printCells_text label cells)
            = (line_count label + 1 + Nat.min (List.length cells) 8
               + (if (8 <? List.length cells)%nat then 1 else 0))%nat).
  { unfold printCells_text.
    rewrite !line_count_app, line_count_show_int, line_count_cell_lines.
    rewrite length_firstn.
    change (line_count "number of ") with 0%nat.
    change (line_count " locations: ") with 0%nat.
    change (line_count endl) with 1%nat.
    destruct (8 <? List.length cells)%nat; [rewrite line_count_app|];
      simpl line_count; lia. }
  split; [|split; [exact Hlines|]].
  - unfold printCells. cbv zeta.
    erewrite bind_val by reflexivity.
    rewrite firstn_print_limit.
    erewrite bind_val by apply (for_each_cout cell_line).
    rewrite printed_printed. unfold printCells_text.
    rewrite !string_app_assoc.
    destruct (Nat.ltb_spec 8 (List.length cells)) as [Hgt|Hle].
    + replace (Z.min (Z.of_nat (List.length cells)) cellPrintLimit
               <? Z.of_nat (List.length cells)) with true
        by (symmetry; apply Z.ltb_lt; unfold cellPrintLimit; lia).
      unfold cout. now rewrite printed_printed, !string_app_assoc.
    + replace (Z.min (Z.of_nat (List.length cells)) cellPrintLimit
               <? Z.of_nat (List.length cells)) with false
        by (symmetry; apply Z.ltb_ge; unfold cellPrintLimit; lia).
      unfold ret. now rewrite string_app_nil_r.
  - rewrite Hlines. destruct (8 <? List.length cells)%nat; lia.
Qed.

(** ** The two algorithm factories and the labels *)

(* the cases of an algorithm index: 0, 1 to 7, larger, negative *)
Ltac index_cases i :=
  let q := fresh "q" in
  destruct i as [|q|q];
  [ | destruct q as [[[q|q|]|[q|q|]|]|[[q|q|]|[q|q|]|]|] | ].

(** X2. [createMultipleAlgorithm] builds an object for the indices 3, 4
    and 5 only, the object [createAlgorithm] builds for the same index,
    and the parameter has no part in it. *)
Theorem createMultipleAlgorithm_agrees (i p : Z) (a : Algorithm) :
  (createMultipleAlgorithm i p = Some a
   <-> 3 <= i <= 5 /\ createAlgorithm i p = Some a)
  /\ (createMultipleAlgorithm i p = None <-> i < 3 \/ 5 < i)
  /\ (forall q, createMultipleAlgorithm i q = createMultipleAlgorithm i p).
Proof.
  split; [|split; [|reflexivity]].
  - index_cases i; cbn [createMultipleAlgorithm createAlgorithm];
      split; try (intros H; discriminate H); try (intros [H _]; lia);
      try (intros H; split; [lia | exact H]); try (intros [_ H]; exact H).
  - index_cases i; cbn [createMultipleAlgorithm];
      split; try (intros H; discriminate H); try (intros _; reflexivity);
      try lia.
Qed.

(** X3. An index has a label exactly when it has an algorithm: the label
    is empty, and [createAlgorithm] returns a null pointer, for the indices
    outside 1..7 and for no other. *)
Theorem label_and_algorithm_agree (i p : Z) :
  (algorithmLabel i = "" <-> i < 1 \/ 7 < i)
  /\ (createAlgorithm i p = None <-> i < 1 \/ 7 < i)
  /\ (algorithmLabel i = "" <-> createAlgorithm i p = None).
Proof.
  assert (Hlabel : algorithmLabel i = "" <-> i < 1 \/ 7 < i).
  { index_cases i; cbn [algorithmLabel];
      split; try (intros H; discriminate H); try (intros _; reflexivity);
      try lia. }
  assert (Halgorithm : createAlgorithm i p = None <-> i < 1 \/ 7 < i).
  { index_cases i; cbn [createAlgorithm];
      split; try (intros H; discriminate H); try (intros _; reflexivity);
      try lia. }
  split; [exact Hlabel|]. split; [exact Halgorithm|].
  rewrite Hlabel, Halgorithm. tauto.
Qed.

Lemma createAlgorithm_parameter i p q :
  i <> 2 -> createAlgorithm i p = createAlgorithm i q.
Proof.
  intros Hi. index_cases i; try reflexivity. congruence.
Qed.

Lemma createAlgorithm_known i p a : createAlgorithm i p = Some a -> 1 <= i <= 7.
Proof.
  intros H. destruct (Z_lt_dec i 1) as [Hlt|Hge].
  - rewrite createAlgorithm_unknown in H by lia. discriminate.
  - destruct (Z_lt_dec 7 i) as [Hgt|Hle]; [|lia].
    rewrite createAlgorithm_unknown in H by lia. discriminate.
Qed.

(** ** More on [executeMeasurement] *)

Section MeasurementFacts.

Context {P : Platform} {L : LfpLibrary}.

(** The four ways a measurement goes, with the world each one leaves. *)
Lemma executeMeasurement_cases d o i out p w :
  (multipleOutlets i p = true
   /\ exists a text,
        executeMeasurement d o i out p w
        = (Val tt,
           {| files :=
                written (files w) out
                 (csv_text
                    (executeMultiple a (loadGdal (files w) (resolve d))
                       (loadOutletLocations (files w) o)));
              console := console w +:+ text;
              clock := tl (tl (clock w));
              calls :=
                (calls w
                 ++ [CallLoadGdal d;
                     CallExecuteMultiple a (loadGdal (files w) (resolve d))
                       (loadOutletLocations (files w) o)])%list |}))
  \/ (multipleOutlets i p = false
      /\ exists a first rest text,
           createAlgorithm i p = Some a
           /\ loadOutletLocations (files w) o = first :: rest
           /\ executeMeasurement d o i out p w
              = (Val tt,
                 {| files :=
                      written (files w) out
              (csv_text [execute a (loadGdal (files w) (resolve d)) first]);
                    console := console w +:+ text;
                    clock := tl (tl (clock w));
                    calls :=
                      (calls w
                       ++ [CallLoadGdal d;
                           CallExecute a (loadGdal (files w) (resolve d)) first])%list |}))
  \/ (multipleOutlets i p = false
      /\ exists first rest text,
           createAlgorithm i p = None
           /\ loadOutletLocations (files w) o = first :: rest
           /\ executeMeasurement d o i out p w
              = (Ub NullObject,
                 {| files := files w; console := console w +:+ text;
                    clock := tl (clock w);
                    calls := (calls w ++ [CallLoadGdal d])%list |}))
  \/ (multipleOutlets i p = false
      /\ loadOutletLocations (files w) o = []
      /\ exists text,
           executeMeasurement d o i out p w
           = (Ub VectorOutOfRange,
              {| files := files w; console := console w +:+ text;
                 clock := clock w;
                 calls := (calls w ++ [CallLoadGdal d])%list |})).
Proof.
  destruct (multipleOutlets i p) eqn:Hmode.
  - left. split; [reflexivity|].
    destruct (executeMeasurement_multiple d o i out p w Hmode)
      as (a & t & _ & E). eauto.
  - right.
    destruct (loadOutletLocations (files w) o) as [|first rest] eqn:Houtlets.
    + right. right. split; [reflexivity|]. split; [reflexivity|].
      destruct (executeMeasurement_empty d o i out p w Hmode Houtlets) as [t E].
      eauto.
    + destruct (createAlgorithm i p) as [a|] eqn:Ha.
      * left. split; [reflexivity|].
        destruct (executeMeasurement_single d o i out p w a first rest
                    Hmode Houtlets Ha) as [t E].
        exists a, first, rest, t. auto.
      * right. left. split; [reflexivity|].
        destruct (executeMeasurement_null d o i out p w first rest
                    Hmode Houtlets Ha) as [t E].
        exists first, rest, t. auto.
Qed.

End MeasurementFacts.

(** X4. A measurement runs to its end exactly in two cases: in
    multi-outlet mode, whatever the outlet list (an empty one included),
    and in single-outlet mode when there is an outlet and the index is one
    of 1..7. *)
Theorem executeMeasurement_completes_iff {P : Platform} {L : LfpLibrary}
    (d o : string) (i : Z) (out : string) (p : Z) (w : World) :
  (exists w', executeMeasurement d o i out p w = (Val tt, w'))
  <-> multipleOutlets i p = true
      \/ (loadOutletLocations (files w) o <> [] /\ 1 <= i <= 7).
Proof.
  split.
  - intros [w' Hrun].
    destruct (executeMeasurement_cases d o i out p w)
      as [(Hmode & _)
         | [(_ & a & first & rest & t & Ha & Houtlets & _)
           | [(_ & first & rest & t & _ & _ & E)
             | (_ & _ & t & E)]]].
    + now left.
    + right. split; [rewrite Houtlets; discriminate|].
      now apply (createAlgorithm_known i p a).
    + congruence.
    + congruence.
  - intros Hcase. destruct (multipleOutlets i p) eqn:Hmode.
    + destruct (executeMeasurement_multiple d o i out p w Hmode)
        as (a & t & _ & E). eauto.
    + destruct Hcase as [Habs | [Houtlets Hi]]; [discriminate|].
      destruct (loadOutletLocations (files w) o) as [|first rest] eqn:E0;
        [congruence|].
      destruct (createAlgorithm_range i p Hi) as [a Ha].
      destruct (executeMeasurement_single d o i out p w a first rest
                  Hmode E0 Ha) as [t E]. eauto.
Qed.

Lemma executeMeasurement_completes_iff_witness :
  (exists w',
     executeMeasurement (P := sample_platform) (L := terminal_library)
       "dir.tif" "empty.txt" 3 "out.csv" 1 sample_world = (Val tt, w'))
  /\ ~ (exists w',
          executeMeasurement (P := sample_platform) (L := terminal_library)
            "dir.tif" "empty.txt" 3 "out.csv" 0 sample_world = (Val tt, w')).
Proof.
  split.
  - apply (executeMeasurement_completes_iff (P := sample_platform) (L := terminal_library)
             "dir.tif" "empty.txt" 3 "out.csv" 1 sample_world).
    left. reflexivity.
  - intros H.
    apply (executeMeasurement_completes_iff (P := sample_platform) (L := terminal_library)
             "dir.tif" "empty.txt" 3 "out.csv" 0 sample_world) in H.
    destruct H as [H | [H _]]; [discriminate H | apply H; reflexivity].
Defined.

(** X5. A measurement changes no file but the one the output name
    denotes: every other file is as it was, whatever the outcome; a run
    that stops at a fault, or whose output file cannot be opened, has
    changed no file at all. Two names of one file are that one file: the
    outlet file is safe only when the output name does not resolve to
    it. *)
Theorem executeMeasurement_writes_only_output {P : Platform} {L : LfpLibrary}
    (d o : string) (i : Z) (out : string) (p : Z) (w w' : World)
    (r : Res unit) :
  executeMeasurement d o i out p w = (r, w') ->
  (forall file, file <> resolve out -> files w' !! file = files w !! file)
  /\ (forall name,
        resolve name <> resolve out ->
        files w' !! resolve name = files w !! resolve name)
  /\ (forall f, r = Ub f -> files w' = files w)
  /\ (writable (resolve out) = false -> files w' = files w).
Proof.
  intros Hrun.
  destruct (executeMeasurement_cases d o i out p w)
    as [(_ & a & t & E)
       | [(_ & a & first & rest & t & _ & _ & E)
         | [(_ & first & rest & t & _ & _ & E)
           | (_ & _ & t & E)]]];
    rewrite E in Hrun; injection Hrun as <- <-; cbn [files];
    (split; [intros file Hfile; first [now apply written_other | reflexivity]|]);
    (split; [intros name Hname; first [now apply written_other | reflexivity]|]);
    (split; [intros f Hf; first [discriminate Hf | reflexivity]|]);
    intros Hclosed; first [now apply written_failed | reflexivity].
Qed.

Lemma executeMeasurement_writes_only_output_witness :
  resolve (Platform := sample_platform) "outlets.txt"
  <> resolve (Platform := sample_platform) "./out.csv"
  /\ files (snd (executeMeasurement (P := sample_platform) (L := terminal_library)
                   "dir.tif" "outlets.txt" 1 "./out.csv" 0 sample_world))
       !! "outlets.txt"
     = files sample_world !! "outlets.txt".
Proof.
  split; [discriminate|].
  apply (proj1 (proj2
           (executeMeasurement_writes_only_output (P := sample_platform)
              (L := terminal_library)
              "dir.tif" "outlets.txt" 1 "./out.csv" 0 sample_world
              (snd (executeMeasurement (P := sample_platform)
                      (L := terminal_library)
                      "dir.tif" "outlets.txt" 1 "./out.csv" 0 sample_world))
              (fst (executeMeasurement (P := sample_platform)
                      (L := terminal_library)
                      "dir.tif" "outlets.txt" 1 "./out.csv" 0 sample_world))
              (surjective_pairing _))) "outlets.txt").
  discriminate.
Defined.

(** An output name that is another spelling of the outlet file: the
    outlet file is overwritten with the result. *)
Example output_name_may_denote_the_outlet_file :
  files (snd (executeMeasurement (P := sample_platform) (L := terminal_library)
                "dir.tif" "outlets.txt" 1 "./outlets.txt" 0 sample_world))
    !! "outlets.txt"
  = Some ("row,column" +:+ endl +:+ "2,2" +:+ endl).
Proof. reflexivity. Qed.

(** X6. Whatever the outcome, a measurement only appends to the console
    and adds to the call log one [loadGdal] call, on the raster name,
    followed by the algorithm calls: none when the run stops at a fault,
    and exactly one when it runs to its end, which is [executeMultiple]
    on the whole outlet list in multi-outlet mode and [execute] on the
    first outlet otherwise. A run that ends has read the clock twice. *)
Theorem executeMeasurement_effects {P : Platform} {L : LfpLibrary}
    (d o : string) (i : Z) (out : string) (p : Z) (w w' : World)
    (r : Res unit) :
  executeMeasurement d o i out p w = (r, w') ->
  (exists text, console w' = console w +:+ text)
  /\ (exists algorithm_calls,
        calls w' = (calls w ++ CallLoadGdal d :: algorithm_calls)%list
        /\ forallb is_algorithm_call algorithm_calls = true
        /\ (forall f, r = Ub f -> algorithm_calls = [])
        /\ (r = Val tt ->
            (multipleOutlets i p = true
             /\ exists a,
                  createMultipleAlgorithm i p = Some a
                  /\ algorithm_calls
                     = [CallExecuteMultiple a (loadGdal (files w) (resolve d))
                          (loadOutletLocations (files w) o)])
            \/ (multipleOutlets i p = false
                /\ exists a first rest,
                     createAlgorithm i p = Some a
                     /\ loadOutletLocations (files w) o = first :: rest
                     /\ algorithm_calls
                        = [CallExecute a (loadGdal (files w) (resolve d)) first])))
  /\ (r = Val tt -> clock w' = tl (tl (clock w))).
Proof.
  intros Hrun. destruct (multipleOutlets i p) eqn:Hmode.
  - destruct (executeMeasurement_multiple d o i out p w Hmode)
      as (a & t & Ha & E).
    rewrite E in Hrun. injection Hrun as <- <-. cbn [console calls clock].
    split; [eauto|]. split; [|reflexivity].
    eexists. split; [reflexivity|]. split; [reflexivity|].
    split; [discriminate|]. intros _. left. split; [reflexivity|]. eauto.
  - destruct (loadOutletLocations (files w) o) as [|first rest] eqn:Houtlets.
    + destruct (executeMeasurement_empty d o i out p w Hmode Houtlets) as [t E].
      rewrite E in Hrun. injection Hrun as <- <-. cbn [console calls clock].
      split; [eauto|]. split; [|discriminate].
      exists []. split; [reflexivity|]. split; [reflexivity|].
      split; [reflexivity | discriminate].
    + destruct (createAlgorithm i p) as [a|] eqn:Ha.
      * destruct (executeMeasurement_single d o i out p w a first rest
                    Hmode Houtlets Ha) as [t E].
        rewrite E in Hrun. injection Hrun as <- <-. cbn [console calls clock].
        split; [eauto|]. split; [|reflexivity].
        eexists. split; [reflexivity|]. split; [reflexivity|].
        split; [discriminate|]. intros _. right. split; [reflexivity|].
        exists a, first, rest. auto.
      * destruct (executeMeasurement_null d o i out p w first rest
                    Hmode Houtlets Ha) as [t E].
        rewrite E in Hrun. injection Hrun as <- <-. cbn [console calls clock].
        split; [eauto|]. split; [|discriminate].
        exists []. split; [reflexivity|]. split; [reflexivity|].
        split; [reflexivity | discriminate].
Qed.

Lemma executeMeasurement_effects_witness :
  calls (snd (executeMeasurement (P := sample_platform) (L := terminal_library)
                "dir.tif" "outlets.txt" 9 "out.csv" 0 sample_world))
  = [CallLoadGdal "dir.tif"]
  /\ calls (snd (executeMeasurement (P := sample_platform) (L := terminal_library)
                   "dir.tif" "outlets.txt" 7 "out.csv" 0 sample_world))
     = [CallLoadGdal "dir.tif";
        CallExecute DoubleDropOmpLfp terminal_grid {| row := 2; col := 2 |}].
Proof.
  split.
  - destruct (executeMeasurement_effects (P := sample_platform)
                (L := terminal_library)
                "dir.tif" "outlets.txt" 9 "out.csv" 0 sample_world
                (snd (executeMeasurement (P := sample_platform)
                        (L := terminal_library)
                        "dir.tif" "outlets.txt" 9 "out.csv" 0 sample_world))
                (fst (executeMeasurement (P := sample_platform)
                        (L := terminal_library)
                        "dir.tif" "outlets.txt" 9 "out.csv" 0 sample_world))
                (surjective_pairing _))
      as (_ & (algorithm_calls & Hcalls & _ & Hnone & _) & _).
    rewrite Hcalls, (Hnone NullObject eq_refl). reflexivity.
  - destruct (executeMeasurement_effects (P := sample_platform)
                (L := terminal_library)
                "dir.tif" "outlets.txt" 7 "out.csv" 0 sample_world
                (snd (executeMeasurement (P := sample_platform)
                        (L := terminal_library)
                        "dir.tif" "outlets.txt" 7 "out.csv" 0 sample_world))
                (fst (executeMeasurement (P := sample_platform)
                        (L := terminal_library)
                        "dir.tif" "outlets.txt" 7 "out.csv" 0 sample_world))
                (surjective_pairing _))
      as (_ & (algorithm_calls & Hcalls & _ & _ & Hone) & _).
    rewrite Hcalls.
    destruct (Hone eq_refl)
      as [(Hmode & _) | (_ & a & first & rest & Ha & Hout & ->)];
      [discriminate Hmode|].
    injection Ha as <-. injection Hout as <- <-. reflexivity.
Defined.

(** X7. Apart from algorithm 2, the parameter counts only through the
    mode it selects: two parameters that select the same mode give the
    same run. *)
Theorem parameter_counts_only_for_the_mode {P : Platform} {L : LfpLibrary}
    (d o : string) (i : Z) (out : string) (p q : Z) (w : World) :
  i <> 2 ->
  multipleOutlets i p = multipleOutlets i q ->
  executeMeasurement d o i out p w = executeMeasurement d o i out q w.
Proof.
  intros Hi Hmode.
  unfold executeMeasurement, measureMultiple, measureSingle.
  rewrite Hmode, (createAlgorithm_parameter i p q Hi). reflexivity.
Qed.

Lemma parameter_counts_only_for_the_mode_witness :
  executeMeasurement (P := sample_platform) (L := terminal_library)
    "dir.tif" "outlets.txt" 4 "out.csv" 1 sample_world
  = executeMeasurement (P := sample_platform) (L := terminal_library)
      "dir.tif" "outlets.txt" 4 "out.csv" (-7) sample_world.
Proof.
  apply (parameter_counts_only_for_the_mode (P := sample_platform) (L := terminal_library)
           "dir.tif" "outlets.txt" 4 "out.csv" 1 (-7) sample_world).
  - discriminate.
  - reflexivity.
Defined.

(** ** More on [main] *)

(** X8. Arguments after the fifth are not looked at. *)
Theorem main_ignores_further_arguments {P : Platform} {L : LfpLibrary}
    (a0 d o i out p : string) (further : list string) (w : World) :
  main (a0 :: d :: o :: i :: out :: p :: further) w
  = main [a0; d; o; i; out; p] w.
Proof. now rewrite !main_run. Qed.

(** X9. The algorithm index and the parameter are read in decimal: given
    as the decimal text of two [int] values, these are the values the
    measurement runs with. *)
Theorem main_reads_decimal_arguments {P : Platform} {L : LfpLibrary}
    (a0 d o out : string) (i p : Z) (w : World) :
  fits_int i -> fits_int p ->
  main [a0; d; o; show_int i; out; show_int p] w
  = (executeMeasurement d o i out p ;;; ret 0) w.
Proof.
  intros Hi Hp. now rewrite main_run, !atoi_show_int.
Qed.

Lemma main_reads_decimal_arguments_witness :
  fits_int 5 /\ fits_int (-1)
  /\ main (P := sample_platform) (L := terminal_library)
       ["lfp"; "dir.tif"; "outlets.txt"; "5"; "out.csv"; "-1"] sample_world
     = (executeMeasurement (P := sample_platform) (L := terminal_library)
          "dir.tif" "outlets.txt" 5 "out.csv" (-1) ;;; ret 0) sample_world.
Proof.
  assert (H5 : fits_int 5) by (split; discriminate).
  assert (H1 : fits_int (-1)) by (split; discriminate).
  split; [exact H5|]. split; [exact H1|].
  apply (main_reads_decimal_arguments (P := sample_platform) (L := terminal_library)
           "lfp" "dir.tif" "outlets.txt" "out.csv" 5 (-1) sample_world H5 H1).
Defined.

(** X10. [atoi] is lenient: white space before the number and anything
    that is not a digit after it are passed over, so an index such as
    [3abc] runs algorithm 3. *)
Theorem main_passes_over_trailing_text {P : Platform} {L : LfpLibrary}
    (a0 d o out lead tok trail : string) (i : Z) (w : World) :
  blank lead -> int_literal tok i -> starts_with_digit trail = false ->
  main [a0; d; o; lead +:+ tok +:+ trail; out] w
  = (executeMeasurement d o i out 0 ;;; ret 0) w.
Proof.
  intros Hlead Htok Htrail.
  now rewrite main_run, (atoi_literal _ _ _ _ Hlead Htok Htrail).
Qed.

Lemma main_passes_over_trailing_text_witness :
  blank " " /\ int_literal "3" 3 /\ starts_with_digit "abc" = false
  /\ main (P := sample_platform) (L := terminal_library)
       ["lfp"; "dir.tif"; "outlets.txt"; " 3abc"; "out.csv"] sample_world
     = (executeMeasurement (P := sample_platform) (L := terminal_library)
          "dir.tif" "outlets.txt" 3 "out.csv" 0 ;;; ret 0) sample_world.
Proof.
  assert (Hlit : int_literal "3" 3) by unsigned_literal "3".
  split; [reflexivity|]. split; [exact Hlit|]. split; [reflexivity|].
  apply (main_passes_over_trailing_text (P := sample_platform) (L := terminal_library)
           "lfp" "dir.tif" "outlets.txt" "out.csv" " " "3" "abc" 3 sample_world
           eq_refl Hlit eq_refl).
Defined.

(** ** More on [loadOutletLocations] *)

Lemma num_get_int_fits s z rest :
  num_get_int s = (Some z, rest) -> fits_int z.
Proof.
  unfold num_get_int.
  destruct (get_sign (skipws s)) as [negative s1].
  destruct (starts_with_digit s1); [|discriminate].
  destruct (get_digits 0 s1) as [v s2]. cbv zeta.
  destruct (_ && _) eqn:E; intros [= <- <-].
  apply andb_true_iff in E as [H1 H2].
  split; now apply Z.leb_le.
Qed.

Lemma extract_int_fits f z f' : extract_int f = (Some z, f') -> fits_int z.
Proof.
  unfold extract_int. destruct (failbit f); [discriminate|].
  destruct (num_get_int (rdbuf f)) as [[v|] rest] eqn:E; [|discriminate].
  intros [= <- <-]. eauto using num_get_int_fits.
Qed.

Lemma extract_triple_fits f r c l f' :
  extract_triple f = (Some (r, c, l), f') -> fits_int r /\ fits_int c.
Proof.
  unfold extract_triple.
  destruct (extract_int f) as [[r0|] f1] eqn:E1;
    destruct (extract_int f1) as [[c0|] f2] eqn:E2;
    destruct (extract_int f2) as [[l0|] f3] eqn:E3; try discriminate.
  intros [= <- <- <- <-]. eauto using extract_int_fits.
Qed.

Lemma read_outlets_fits file :
  forall outlets,
    Forall (fun o => fits_int (row o) /\ fits_int (col o)) outlets ->
    Forall (fun o => fits_int (row o) /\ fits_int (col o))
      (read_outlets file outlets).
Proof.
  remember (S (String.length (rdbuf file))) as n eqn:Hn.
  assert (Hlt : (String.length (rdbuf file) < n)%nat) by lia. clear Hn.
  revert file Hlt.
  induction n as [|n IH]; intros file Hlt outlets Hall; [lia|].
  rewrite read_outlets_step.
  destruct (extract_triple file) as [[[[r c] l]|] file'] eqn:E; [|exact Hall].
  apply IH.
  - apply extract_triple_shrinks in E. lia.
  - apply Forall_app. split; [exact Hall|].
    constructor; [|constructor]. exact (extract_triple_fits _ _ _ _ _ E).
Qed.

Lemma overflow_sign_digits tok :
  overflowing_literal tok ->
  exists (negative : bool) ds,
    digit_string ds
    /\ ~ fits_int (if negative then - decimal_value ds else decimal_value ds)
    /\ forall rest,
         skipws (tok +:+ rest) = tok +:+ rest
         /\ get_sign (tok +:+ rest) = (negative, ds +:+ rest).
Proof.
  intros [ds Hds Hfit | ds Hds Hfit | ds Hds Hfit].
  - exists false, ds. split; [exact Hds|]. split; [exact Hfit|]. intros rest.
    destruct (digit_string_head _ Hds) as (c & r & -> & Hc).
    destruct (digit_not_sign _ Hc) as [Hm Hp].
    rewrite string_app_cons. cbn [skipws get_sign].
    now rewrite (digit_not_space _ Hc), Hm, Hp.
  - exists false, ds. split; [exact Hds|]. split; [exact Hfit|]. intros rest.
    rewrite string_app_cons. split; reflexivity.
  - exists true, ds. split; [exact Hds|]. split; [exact Hfit|]. intros rest.
    rewrite string_app_cons. split; reflexivity.
Qed.

(** A literal that does not fit an [int] is consumed and sets the fail
    bit. *)
Lemma extract_int_overflow ws tok rest :
  blank ws -> overflowing_literal tok -> starts_with_digit rest = false ->
  extract_int (good_stream (ws +:+ tok +:+ rest))
  = (None, {| failbit := true; rdbuf := rest |}).
Proof.
  intros Hws Htok Hrest.
  destruct (overflow_sign_digits _ Htok) as (negative & ds & Hds & Hfit & Hrun).
  destruct (Hrun rest) as [Hskip Hsign].
  unfold extract_int, good_stream, num_get_int. cbn [failbit rdbuf].
  rewrite (skipws_blank _ _ Hws), Hskip, Hsign.
  destruct (digit_string_head _ Hds) as (c & r & Hhead & Hc).
  replace (starts_with_digit (ds +:+ rest)) with true
    by (rewrite Hhead, string_app_cons; simpl; now rewrite Hc).
  rewrite (get_digits_run ds rest (proj2 Hds) Hrest).
  replace (0 * 10 ^ Z.of_nat (String.length ds) + decimal_value ds)
    with (decimal_value ds) by lia.
  cbv zeta.
  destruct ((INT_MIN <=? (if negative then - decimal_value ds else decimal_value ds))
            && ((if negative then - decimal_value ds else decimal_value ds)
                <=? INT_MAX)) eqn:E; [|reflexivity].
  exfalso. apply Hfit. apply andb_true_iff in E as [H1 H2].
  split; now apply Z.leb_le.
Qed.

Lemma overflowing_triple_unreadable tail :
  overflowing_triple tail -> unreadable tail.
Proof.
  intros [lead tok rest Hlead Htok Hrest
         | lead tr r sep1 tok rest Hlead Hr Hs1 Htok Hrest
         | lead tr r sep1 tc c sep2 tok rest Hlead Hr Hs1 Hc Hs2 Htok Hrest];
    unfold unreadable, extract_triple.
  - rewrite (extract_int_overflow _ _ _ Hlead Htok Hrest).
    now rewrite !extract_int_failed.
  - rewrite (extract_int_literal lead tr r _ Hlead Hr)
      by now apply separator_not_digit.
    rewrite (extract_int_overflow _ _ _ (separator_blank _ Hs1) Htok Hrest).
    now rewrite !extract_int_failed.
  - rewrite (extract_int_literal lead tr r _ Hlead Hr)
      by now apply separator_not_digit.
    change (sep1 +:+ tc +:+ sep2 +:+ tok +:+ rest)
      with (sep1 +:+ tc +:+ (sep2 +:+ tok +:+ rest)).
    rewrite (extract_int_literal sep1 tc c _ (separator_blank _ Hs1) Hc)
      by now apply separator_not_digit.
    now rewrite (extract_int_overflow _ _ _ (separator_blank _ Hs2) Htok Hrest).
Qed.

(** X11. A number that does not fit an [int] is never stored and ends the
    reading: whatever the file holds, the rows and columns returned fit an
    [int]; and when well-formed triples are followed by a triple with a
    row, a column or a label that does not fit, what is returned is the
    locations of the triples before it, whatever comes after it. *)
Theorem loadOutletLocations_fits_int {P : Platform}
    (fs : gmap string string) (filename : string) :
  (forall o,
     In o (loadOutletLocations fs filename) ->
     fits_int (row o) /\ fits_int (col o))
  /\ (forall text tail triples,
        fs !! resolve filename = Some (text +:+ tail) ->
        outlet_text text triples ->
        starts_with_digit tail = false ->
        overflowing_triple tail ->
        loadOutletLocations fs filename = map location_of triples).
Proof.
  split.
  - intros o Hin.
    pose proof (read_outlets_fits (fstream_open fs filename) []
                  ltac:(constructor)) as Hall.
    rewrite Forall_forall in Hall. apply Hall.
    apply list_elem_of_In. exact Hin.
  - intros text tail triples Hfile Htext Hstart Hover.
    unfold loadOutletLocations.
    rewrite (fstream_open_found _ _ _ Hfile).
    rewrite (read_outlets_text _ _ Htext tail Hstart).
    rewrite (read_outlets_stop _ (overflowing_triple_unreadable _ Hover)).
    apply app_nil_r.
Qed.

Lemma overflow_text_prefix : outlet_text "1 2 3" [(1, 2, 3)].
Proof.
  apply (outlet_text_triple "1 2 3" (1, 2, 3) "").
  - apply (triple_fields "" "1" " " "2" " " "3");
      [reflexivity | | nonempty_and_check | | nonempty_and_check | ].
    + unsigned_literal "1".
    + unsigned_literal "2".
    + unsigned_literal "3".
  - exact I.
  - apply outlet_text_end. reflexivity.
Defined.

Lemma overflow_text_tail :
  overflowing_triple
    (endl +:+ "4" +:+ " " +:+ "2147483648"
     +:+ (" 6" +:+ endl +:+ "7 8 9" +:+ endl)).
Proof.
  apply (overflowing_col endl "4" 4 " " "2147483648"
           (" 6" +:+ endl +:+ "7 8 9" +:+ endl));
    [reflexivity | unsigned_literal "4" | nonempty_and_check | | reflexivity].
  apply (overflowing_unsigned "2147483648"); [nonempty_and_check|].
  intros [_ H]. vm_compute in H. now apply H.
Defined.

Lemma loadOutletLocations_fits_int_witness :
  In {| row := 4; col := -5 |}
    (loadOutletLocations (P := sample_platform) sample_files "spaced.txt")
  /\ fits_int 4 /\ fits_int (-5)
  /\ loadOutletLocations (P := sample_platform) sample_files "overflow.txt"
     = [{| row := 1; col := 2 |}].
Proof.
  assert (Hin : In {| row := 4; col := -5 |}
                  (loadOutletLocations (P := sample_platform)
                     sample_files "spaced.txt"))
    by (right; left; reflexivity).
  destruct (loadOutletLocations_fits_int (P := sample_platform)
              sample_files "spaced.txt") as (Hfits & _).
  destruct (loadOutletLocations_fits_int (P := sample_platform)
              sample_files "overflow.txt") as (_ & Hstop).
  split; [exact Hin|].
  destruct (Hfits _ Hin) as [H4 H5]. split; [exact H4|]. split; [exact H5|].
  apply (Hstop "1 2 3"
           (endl +:+ "4" +:+ " " +:+ "2147483648"
            +:+ (" 6" +:+ endl +:+ "7 8 9" +:+ endl))
           [(1, 2, 3)]).
  - reflexivity.
  - exact overflow_text_prefix.
  - reflexivity.
  - exact overflow_text_tail.
Defined.

(** X12. White space at the start of the file has no influence on what is
    read, whatever follows it. *)
Theorem loadOutletLocations_skips_leading_space {P : Platform}
    (fs : gmap string string) (filename lead text : string) :
  blank lead ->
  loadOutletLocations (<[resolve filename := lead +:+ text]> fs) filename
  = loadOutletLocations (<[resolve filename := text]> fs) filename.
Proof.
  intros Hlead. unfold loadOutletLocations.
  rewrite (fstream_open_found _ _ (lead +:+ text)) by apply lookup_insert_eq.
  rewrite (fstream_open_found _ _ text) by apply lookup_insert_eq.
  rewrite (read_outlets_step (good_stream (lead +:+ text))),
    (read_outlets_step (good_stream text)).
  now rewrite (extract_triple_blank _ _ Hlead).
Qed.

Lemma loadOutletLocations_skips_leading_space_witness :
  blank (endl +:+ "  ")
  /\ loadOutletLocations (P := sample_platform) (<["a.txt" := (endl +:+ "  ") +:+ "7 8 9 x"]> sample_files) "a.txt"
     = loadOutletLocations (P := sample_platform) (<["a.txt" := "7 8 9 x"]> sample_files) "a.txt".
Proof.
  split; [reflexivity|].
  apply (loadOutletLocations_skips_leading_space (P := sample_platform)
           sample_files "a.txt"
           (endl +:+ "  ") "7 8 9 x").
  reflexivity.
Defined.

(** X13. The reading goes on after a well-formed part: the outlets of a
    text that starts with well-formed triples are the locations of these
    triples followed by the outlets read from the rest, provided the rest
    does not start with a digit. *)
Theorem loadOutletLocations_resumes_after_prefix {P : Platform}
    (fs : gmap string string) (filename text tail : string)
    (triples : list (Z * Z * Z)) :
  outlet_text text triples ->
  starts_with_digit tail = false ->
  loadOutletLocations (<[resolve filename := text +:+ tail]> fs) filename
  = (map location_of triples
     ++ loadOutletLocations (<[resolve filename := tail]> fs) filename)%list.
Proof.
  intros Htext Htail. unfold loadOutletLocations.
  rewrite (fstream_open_found _ _ (text +:+ tail)) by apply lookup_insert_eq.
  rewrite (fstream_open_found _ _ tail) by apply lookup_insert_eq.
  exact (read_outlets_text _ _ Htext tail Htail).
Qed.

Lemma loadOutletLocations_resumes_after_prefix_witness :
  outlet_text spaced_text [(1, 2, 3); (4, -5, 6)]
  /\ starts_with_digit "-7 8 9" = false
  /\ loadOutletLocations (P := sample_platform) (<["a.txt" := spaced_text +:+ "-7 8 9"]> sample_files) "a.txt"
     = [{| row := 1; col := 2 |}; {| row := 4; col := -5 |};
        {| row := -7; col := 8 |}].
Proof.
  split; [exact spaced_text_well_formed|]. split; [reflexivity|].
  eapply eq_trans;
    [exact (loadOutletLocations_resumes_after_prefix (P := sample_platform)
              sample_files "a.txt"
              spaced_text "-7 8 9" [(1, 2, 3); (4, -5, 6)]
              spaced_text_well_formed eq_refl)
    | reflexivity].
Defined.

(** X14. A result file is no outlet list: read as one it gives no outlet
    at all, the reading stops at the header. *)
Theorem result_file_is_no_outlet_list {P : Platform}
    (fs : gmap string string) (filename : string)
    (sources : list CellLocation) :
  loadOutletLocations (<[resolve filename := csv_text sources]> fs) filename = [].
Proof.
  unfold loadOutletLocations.
  rewrite (fstream_open_found _ _ (csv_text sources)) by apply lookup_insert_eq.
  apply read_outlets_stop.
  apply (unreadable_non_numeric "" "r"
           ("ow,column" +:+ endl +:+ join (map csv_line sources)));
    reflexivity.
Qed.

(** ** Running a measurement again *)

Lemma loadOutletLocations_other_file {P : Platform}
    (fs : gmap string string) (filename other text : string) :
  resolve other <> resolve filename ->
  loadOutletLocations (written fs other text) filename
  = loadOutletLocations fs filename.
Proof.
  intros Hne. unfold loadOutletLocations, fstream_open.
  rewrite written_other by congruence. reflexivity.
Qed.

Lemma written_written {P : Platform} (fs : gmap string string) name text :
  written (written fs name text) name text = written fs name text.
Proof.
  unfold written. destruct (writable (resolve name)); [|reflexivity].
  apply insert_insert_eq.
Qed.

(** X15. A measurement that ran to its end can be run again on what it
    left: when the output name denotes neither the raster file nor the
    outlet file, and for a raster loader that reads only the file it is
    given, the second run ends too and leaves every file, the result file
    included, as the first run left it. *)
Theorem executeMeasurement_again {P : Platform} {L : LfpLibrary}
    (d o : string) (i : Z) (out : string) (p : Z) (w w1 : World) :
  reads_only_named_file L ->
  resolve out <> resolve d -> resolve out <> resolve o ->
  executeMeasurement d o i out p w = (Val tt, w1) ->
  exists w2,
    executeMeasurement d o i out p w1 = (Val tt, w2)
    /\ files w2 = files w1.
Proof.
  intros Hreads Hd Ho Hrun.
  destruct (multipleOutlets i p) eqn:Hmode.
  - destruct (executeMeasurement_multiple d o i out p w Hmode)
      as (a & t & Ha & E).
    rewrite E in Hrun. injection Hrun as <-.
    match goal with
    | |- context [executeMeasurement d o i out p ?w1] =>
        destruct (executeMeasurement_multiple d o i out p w1 Hmode)
          as (a' & t' & Ha' & E')
    end.
    assert (a' = a) as -> by congruence.
    eexists. split; [exact E'|]. cbn [files].
    rewrite loadOutletLocations_other_file by exact Ho.
    rewrite (Hreads (written (files w) out _) (files w) (resolve d))
      by (apply written_other; congruence).
    apply written_written.
  - destruct (loadOutletLocations (files w) o) as [|first rest] eqn:Houtlets.
    + destruct (executeMeasurement_empty d o i out p w Hmode Houtlets) as [t E].
      congruence.
    + destruct (createAlgorithm i p) as [a|] eqn:Ha.
      * destruct (executeMeasurement_single d o i out p w a first rest
                    Hmode Houtlets Ha) as [t E].
        rewrite E in Hrun. injection Hrun as <-.
        match goal with
        | |- context [executeMeasurement d o i out p ?w1] =>
            destruct (executeMeasurement_single d o i out p w1 a first rest
                        Hmode) as [t' E'];
              [cbn [files];
               now rewrite loadOutletLocations_other_file by exact Ho
              | exact Ha |]
        end.
        eexists. split; [exact E'|]. cbn [files].
        rewrite (Hreads (written (files w) out _) (files w) (resolve d))
          by (apply written_other; congruence).
        apply written_written.
      * destruct (executeMeasurement_null d o i out p w first rest
                    Hmode Houtlets Ha) as [t E].
        congruence.
Qed.

Lemma terminal_library_reads_only_named_file :
  reads_only_named_file terminal_library.
Proof. intros fs1 fs2 name _. reflexivity. Defined.

Lemma executeMeasurement_again_witness :
  exists w1 w2,
    executeMeasurement (P := sample_platform) (L := terminal_library)
      "dir.tif" "outlets.txt" 3 "out.csv" 1 sample_world = (Val tt, w1)
    /\ executeMeasurement (P := sample_platform) (L := terminal_library)
         "dir.tif" "outlets.txt" 3 "out.csv" 1 w1 = (Val tt, w2)
    /\ files w2 = files w1.
Proof.
  destruct (executeMeasurement (P := sample_platform) (L := terminal_library)
              "dir.tif" "outlets.txt" 3 "out.csv" 1 sample_world)
    as [[[]|f] w1] eqn:E; [|vm_compute in E; discriminate E].
  destruct (executeMeasurement_again (P := sample_platform)
              (L := terminal_library)
              "dir.tif" "outlets.txt" 3 "out.csv" 1 sample_world w1
              terminal_library_reads_only_named_file)
    as (w2 & Hrun & Hfiles); [discriminate | discriminate | exact E |].
  exists w1, w2. split; [reflexivity|]. split; [exact Hrun | exact Hfiles].
Defined.

(** With an output name that denotes the outlet file the second run finds
    the result file where the outlets were, reads no outlet from it and
    stops at [outletLocations[0]]. *)
Example second_run_on_overwritten_outlets :
  fst (executeMeasurement (P := sample_platform) (L := terminal_library)
         "dir.tif" "outlets.txt" 1 "./outlets.txt" 0
         (snd (executeMeasurement (P := sample_platform) (L := terminal_library)
                 "dir.tif" "outlets.txt" 1 "./outlets.txt" 0 sample_world)))
  = Ub VectorOutOfRange.
Proof. vm_compute. reflexivity. Qed.
